(** * A cache-aside user service (p4.py): model and verified properties

    The Flask application [p4.py] serves create / read / update / delete
    requests for a [User] table (SQLAlchemy) fronted by a Redis cache whose
    entries expire after [CACHE_TIMEOUT] seconds.  This development embeds
    the request handlers as functions over an explicit state (the committed
    table, the Redis keyspace and the trace of calls made on the two
    clients) and proves the properties of the validation and cache-aside
    discipline.

    Conventions of the embedding:
    - a request body is the value returned by [request.get_json()], a JSON
      value, a dict being the list of its items (keys distinct, in insertion
      order); Python's truthiness, [in] and subscripting are modelled on it,
      a [TypeError] they raise being an uncaught exception of the handler;
      a request for which [get_json] itself aborts (a body that is not
      JSON) does not reach the code of a handler and is not a request of
      the model;
    - strings are sequences of characters with code points below 256, one
      8-bit character for each; a string with a character beyond them has
      no counterpart here;
    - the table holds committed rows only: changes made on a loaded object
      reach the table at [db.session.commit()] or are discarded when the
      request ends; the store is the default one (SQLite), which does not
      enforce the lengths of the [String] columns; the integers bound to
      the [age] column are taken to fit it (below 2^63: the driver refuses
      a larger one with an [OverflowError] at the commit, which is not an
      outcome of the model);
    - what the environment decides during one request (the uuid drawn, the
      clock of the Redis server, a storage failure at commit, how the engine
      coerces a non-text value bound to a text column) is the request's
      [env]; queries and Redis commands themselves are taken to answer: the
      exception of a client that cannot reach its server, which no handler
      catches when it comes from Redis or from a query, is not an outcome
      of the model either. *)

From Stdlib Require Import ZArith PrimFloat Ascii String List Bool Lia.
From stdpp Require Import base option gmap strings.

#[local] Open Scope Z_scope.
#[local] Open Scope string_scope.
#[local] Open Scope list_scope.

(** ** JSON values as Python sees them *)

Module Json.

#[local] Set Warnings "-register-all".

Inductive json :=
| JNull
| JBool (b : bool)
| JInt (n : Z)
| JFloat (f : float)
| JStr (s : string)
| JArr (l : list json)
| JObj (items : list (string * json)).

(** [bool(v)]: the test made by [if not data]. *)
Definition truthy (v : json) : bool :=
  match v with
  | JNull => false
  | JBool b => b
  | JInt n => negb (n =? 0)%Z
  | JFloat f => negb (PrimFloat.eqb f 0%float)
  | JStr s => negb (String.eqb s "")
  | JArr l => match l with [] => false | _ :: _ => true end
  | JObj items => match items with [] => false | _ :: _ => true end
  end.

(** The exceptions Python raises on these values, and a result that is
    a value or a raised exception. *)
Inductive exn := TypeError | KeyError.

Inductive py (A : Type) :=
| Ok (a : A)
| Throws (x : exn).
Arguments Ok {A} a.
Arguments Throws {A} x.

(** [sub in s] on two strings. *)
Fixpoint is_substring (sub s : string) : bool :=
  String.prefix sub s ||
  match s with
  | EmptyString => false
  | String _ s' => is_substring sub s'
  end.

(** The value at key [k] among the items of a dict. *)
Fixpoint assoc (k : string) (items : list (string * json)) : option json :=
  match items with
  | [] => None
  | (k', v) :: items' => if String.eqb k' k then Some v else assoc k items'
  end.

Definition is_str (k : string) (v : json) : bool :=
  match v with JStr s => String.eqb s k | _ => false end.

(** [k in v] for a string [k]: a key of a dict, an element of a list, a
    substring of a string; a [TypeError] on a value that is not a
    container. *)
Definition py_in (k : string) (v : json) : py bool :=
  match v with
  | JObj items => Ok (match assoc k items with Some _ => true | None => false end)
  | JArr l => Ok (existsb (is_str k) l)
  | JStr s => Ok (is_substring k s)
  | JNull | JBool _ | JInt _ | JFloat _ => Throws TypeError
  end.

(** [all(k in v for k in ks)]: stops at the first key that is absent. *)
Fixpoint py_all_in (ks : list string) (v : json) : py bool :=
  match ks with
  | [] => Ok true
  | k :: ks' =>
      match py_in k v with
      | Ok true => py_all_in ks' v
      | Ok false => Ok false
      | Throws x => Throws x
      end
  end.

(** [v[k]] for a string [k]: the value at a key of a dict ([KeyError]
    when absent); a [TypeError] on every other value, a list or a string
    being indexed by integers only. *)
Definition py_getitem (v : json) (k : string) : py json :=
  match v with
  | JObj items => match assoc k items with Some x => Ok x | None => Throws KeyError end
  | _ => Throws TypeError
  end.

(** [isinstance(v, int)], with the integer [v] stands for: [bool] is a
    subclass of [int], [True] being 1 and [False] 0. *)
Definition as_int (v : json) : option Z :=
  match v with
  | JInt n => Some n
  | JBool b => Some (Z.b2z b)
  | _ => None
  end.

(** A dict literal, its items in the order written. *)
Definition obj (items : list (string * json)) : json := JObj items.

End Json.
Export Json.

(** ** Regular expressions of the [re] module *)

Module Re.

(** A bracketed set is a list of ranges; a single character [c] is the
    range [c-c]. *)
Definition cset := list (ascii * ascii).

Definition in_range (c : ascii) (r : ascii * ascii) : bool :=
  (N_of_ascii (fst r) <=? N_of_ascii c)%N && (N_of_ascii c <=? N_of_ascii (snd r))%N.

Definition in_cset (cs : cset) (c : ascii) : bool := existsb (in_range c) cs.

Definition newline : ascii := "010"%char.

Inductive regex :=
| Void
| Eps
| Chars (cs : cset)
| Dot
| Seq (r1 r2 : regex)
| Alt (r1 r2 : regex)
| Star (r : regex).

Definition Lit (c : ascii) : regex := Chars [(c, c)].
Definition Plus (r : regex) : regex := Seq r (Star r).

(** The strings a pattern matches in full.  [Dot] is [.] without
    [re.DOTALL]: any character but a newline. *)
Inductive lang : regex -> string -> Prop :=
| lang_eps : lang Eps ""
| lang_in cs c : in_cset cs c = true -> lang (Chars cs) (String c "")
| lang_dot c : c <> newline -> lang Dot (String c "")
| lang_seq r1 r2 s1 s2 : lang r1 s1 -> lang r2 s2 -> lang (Seq r1 r2) (s1 +:+ s2)
| lang_alt_l r1 r2 s : lang r1 s -> lang (Alt r1 r2) s
| lang_alt_r r1 r2 s : lang r2 s -> lang (Alt r1 r2) s
| lang_star_nil r : lang (Star r) ""
| lang_star_cons r s1 s2 : lang r s1 -> lang (Star r) s2 -> lang (Star r) (s1 +:+ s2).

Fixpoint nullable (r : regex) : bool :=
  match r with
  | Void | Chars _ | Dot => false
  | Eps | Star _ => true
  | Seq r1 r2 => nullable r1 && nullable r2
  | Alt r1 r2 => nullable r1 || nullable r2
  end.

Fixpoint deriv (c : ascii) (r : regex) : regex :=
  match r with
  | Void | Eps => Void
  | Chars cs => if in_cset cs c then Eps else Void
  | Dot => if Ascii.eqb c newline then Void else Eps
  | Seq r1 r2 =>
      if nullable r1 then Alt (Seq (deriv c r1) r2) (deriv c r2)
      else Seq (deriv c r1) r2
  | Alt r1 r2 => Alt (deriv c r1) (deriv c r2)
  | Star r1 => Seq (deriv c r1) (Star r1)
  end.

(** Does [r] match the whole of [s]? *)
Fixpoint accepts (r : regex) (s : string) : bool :=
  match s with
  | EmptyString => nullable r
  | String c s' => accepts (deriv c r) s'
  end.

(** [s] without its last character when that is a newline. *)
Fixpoint chomp (s : string) : option string :=
  match s with
  | EmptyString => None
  | String c EmptyString => if Ascii.eqb c newline then Some "" else None
  | String c s' => String c <$> chomp s'
  end.

(** [re.match('^' r '$', s) is not None]: the match starts at the first
    character, and [$] holds at the end of [s] and also just before a
    newline that ends [s]. *)
Definition py_match (r : regex) (s : string) : bool :=
  accepts r s || match chomp s with Some s' => accepts r s' | None => false end.

(** Does the character [c] occur in [s]? *)
Fixpoint occurs (c : ascii) (s : string) : bool :=
  match s with
  | EmptyString => false
  | String a s' => Ascii.eqb a c || occurs c s'
  end.

(** A pattern that matches nothing, by its shape. *)
Fixpoint dead (r : regex) : bool :=
  match r with
  | Void => true
  | Eps | Chars _ | Dot | Star _ => false
  | Seq r1 r2 => dead r1 || dead r2
  | Alt r1 r2 => dead r1 && dead r2
  end.

(** A pattern all of whose matches contain [c], by its shape. *)
Fixpoint needs (c : ascii) (r : regex) : bool :=
  match r with
  | Void => true
  | Eps | Dot | Star _ => false
  | Chars cs => forallb (fun rg => Ascii.eqb (fst rg) c && Ascii.eqb (snd rg) c) cs
  | Seq r1 r2 => needs c r1 || needs c r2
  | Alt r1 r2 => needs c r1 && needs c r2
  end.

(** A pattern none of whose matches contains [c], by its shape. *)
Fixpoint avoids (c : ascii) (r : regex) : bool :=
  match r with
  | Void | Eps => true
  | Chars cs => negb (in_cset cs c)
  | Dot => Ascii.eqb c newline
  | Seq r1 r2 | Alt r1 r2 => avoids c r1 && avoids c r2
  | Star r1 => avoids c r1
  end.

End Re.

(** ** Validation (p4.py, lines 33-34 and the inline checks on [age]) *)

Import Re.

Definition alnum : cset := [("a", "z"); ("A", "Z"); ("0", "9")]%char.

(** [[a-zA-Z0-9_.+-]] *)
Definition cs_local : cset := (alnum ++ [("_", "_"); (".", "."); ("+", "+"); ("-", "-")]%char)%list.
(** [[a-zA-Z0-9-]] *)
Definition cs_host : cset := (alnum ++ [("-", "-")]%char)%list.
(** [[a-zA-Z0-9-.]] *)
Definition cs_suffix : cset := (alnum ++ [("-", "-"); (".", ".")]%char)%list.

(** The pattern of [is_valid_email], between its [^] and [$].  It is
    written as the raw string
    [r'^[a-zA-Z0-9_.+-]+@[a-zA-Z0-9-]+\\.[a-zA-Z0-9-.]+$']: in a raw
    string [\\.] is three characters, which [re] reads as an escaped
    backslash followed by an unescaped [.]. *)
Definition email_pattern : regex :=
  Seq (Plus (Chars cs_local))
 (Seq (Lit "@")
 (Seq (Plus (Chars cs_host))
 (Seq (Lit "\")
 (Seq Dot
      (Plus (Chars cs_suffix)))))).

Definition is_valid_email (email : string) : bool := py_match email_pattern email.

(** The pattern as the specification words it: local part, [@], host,
    a literal dot, suffix; and the validator it describes, which accepts
    exactly the strings the pattern matches. *)
Definition spec_email_pattern : regex :=
  Seq (Plus (Chars cs_local))
 (Seq (Lit "@")
 (Seq (Plus (Chars cs_host))
 (Seq (Lit ".")
      (Plus (Chars cs_suffix))))).

Definition spec_valid_email (email : string) : bool := accepts spec_email_pattern email.

(** [not isinstance(age, int) or age <= 0] *)
Definition age_invalid (age : json) : bool :=
  match as_int age with
  | None => true
  | Some n => (n <=? 0)%Z
  end.

(** ** The Record Store and the Cache Layer *)

(** A committed row of the [user] table, keyed by its primary key [id]
    (p4.py, lines 27-31). *)
Record row := Row { col_name : string; col_email : string; col_age : Z }.

(** A [User] object in the session.  [name] holds whatever JSON value the
    request carried; [email] and [age] are assigned only after their
    checks, which leave a string and an integer. *)
Module User.
Record t := mk { id : string; name : json; email : string; age : Z }.

Definition set_name (v : json) (u : t) : t := mk (id u) v (email u) (age u).
Definition set_email (s : string) (u : t) : t := mk (id u) (name u) s (age u).
Definition set_age (n : Z) (u : t) : t := mk (id u) (name u) (email u) n.

(** The object loaded from a row. *)
Definition load (uid : string) (r : row) : t :=
  mk uid (JStr (col_name r)) (col_email r) (col_age r).

(** [{'id': u.id, 'name': u.name, 'email': u.email, 'age': u.age}] *)
Definition to_dict (u : t) : json :=
  obj [("id", JStr (id u)); ("name", name u); ("email", JStr (email u)); ("age", JInt (age u))].
End User.

(** A Redis string value written by this service is the text
    [json.dumps(v)] of a dict [v]: it is represented by [v], so that
    [json.loads] gives [v] back, and it is never the empty string, so that
    [if cached_user:] holds for every value found. *)
Inductive redis_string := Dumped (v : json).

Definition json_dumps (v : json) : redis_string := Dumped v.
Definition json_loads (s : redis_string) : json := let 'Dumped v := s in v.

(** A key of the Redis keyspace with its value and the time at which it
    expires. *)
Record entry := Entry { value : redis_string; expires_at : Z }.

Definition CACHE_TIMEOUT : Z := 300.

(** The calls a handler makes on [db.session], [User.query] and
    [redis_client]. *)
Inductive event :=
| SessionAdd (uid : string)
| SessionDelete (uid : string)
| SessionCommit
| SessionRollback
| QueryGet (uid : string)
| QueryAll
| RedisGet (key : string)
| RedisSetex (key : string) (ttl : Z)
| RedisDelete (key : string).

Definition is_store_event (ev : event) : bool :=
  match ev with
  | RedisGet _ | RedisSetex _ _ | RedisDelete _ => false
  | _ => true
  end.

Record state := State {
  table : gmap string row;
  cache : gmap string entry;
  trace : list event
}.

(** What the environment decides during one request. *)
Record env := Env {
  uuid4 : string;                 (* str(uuid.uuid4()) *)
  now : Z;                        (* clock of the Redis server, in seconds *)
  storage_fault : bool;           (* the commit raises a SQLAlchemyError
                                     that is not an IntegrityError *)
  text_of : json -> option string (* the text the engine stores for a value
                                     that is neither a string nor null,
                                     when it accepts it *)
}.

(** ** Handlers as computations: a state monad with early return *)

Definition response : Type := json * Z.

Inductive res (A : Type) :=
| Val (a : A)
| Exit (r : response)
| Raise (x : exn).
Arguments Val {A} a.
Arguments Exit {A} r.
Arguments Raise {A} x.

Definition M (A : Type) : Type := state -> res A * state.

#[global] Instance M_ret : MRet M := fun A a st => (Val a, st).

#[global] Instance M_bind : MBind M := fun A B f m st =>
  match m st with
  | (Val a, st') => f a st'
  | (Exit r, st') => (Exit r, st')
  | (Raise x, st') => (Raise x, st')
  end.

(** [return body, status] before the end of the handler. *)
Definition return_ {A} (r : response) : M A := fun st => (Exit r, st).

Definition raise {A} (x : exn) : M A := fun st => (Raise x, st).

Definition lift {A} (p : py A) : M A :=
  match p with
  | Ok a => mret a
  | Throws x => raise x
  end.

Definition log (ev : event) : M unit := fun st =>
  (Val tt, State (table st) (cache st) (trace st ++ [ev])).

(** What the client receives: the response returned, or the failure of a
    handler whose exception nothing caught. *)
Inductive outcome :=
| Response (body : json) (status : Z)
| Uncaught (x : exn).

Definition run (h : M response) (st : state) : outcome * state :=
  match h st with
  | (Val (body, status), st') | (Exit (body, status), st') => (Response body status, st')
  | (Raise x, st') => (Uncaught x, st')
  end.

Definition jsonify (v : json) : json := v.

Definition error (msg : string) : json := obj [("error", JStr msg)].
Definition message (msg : string) : json := obj [("message", JStr msg)].

(** ** Redis commands

    The commands of a server that answers.  A command that cannot reach
    the server raises in the client an exception that no handler catches:
    the request then ends without a response of the handler, after the
    commit when the command follows one. *)

(** [f'user:{uid}'] *)
Definition user_key (uid : string) : string := "user:" +:+ uid.

(** The value at a key that is present and has not expired. *)
Definition live (e : env) (c : gmap string entry) (k : string) : option redis_string :=
  match c !! k with
  | Some en => if (now e <? expires_at en)%Z then Some (value en) else None
  | None => None
  end.

Definition redis_get (e : env) (k : string) : M (option redis_string) := fun st =>
  (Val (live e (cache st) k), State (table st) (cache st) (trace st ++ [RedisGet k])).

Definition redis_setex (e : env) (k : string) (ttl : Z) (v : redis_string) : M unit := fun st =>
  (Val tt, State (table st) (<[k := Entry v (now e + ttl)]> (cache st))
                 (trace st ++ [RedisSetex k ttl])).

Definition redis_delete (k : string) : M unit := fun st =>
  (Val tt, State (table st) (delete k (cache st)) (trace st ++ [RedisDelete k])).

(** ** The SQLAlchemy session *)

(** [User.query.get(uid)], and the query by [filter_by(id=uid).first()]. *)
Definition query_get (uid : string) : M (option User.t) := fun st =>
  (Val (User.load uid <$> table st !! uid),
   State (table st) (cache st) (trace st ++ [QueryGet uid])).

(** [User.query.with_entities(...).all()]: the rows, in the order the table
    enumerates them here (the query has no ORDER BY, and the order the
    store answers in is its own). *)
Definition query_all : M (list User.t) := fun st =>
  (Val (map (fun kr => User.load (fst kr) (snd kr)) (map_to_list (table st))),
   State (table st) (cache st) (trace st ++ [QueryAll])).

(** The unit of work a commit flushes: a new object, a loaded object whose
    attributes were assigned, a loaded object marked for deletion. *)
Inductive work :=
| Add (u : User.t)
| Dirty (u : User.t)
| Deleted (u : User.t).

(** The result of [db.session.commit()]: the object as the session holds
    it afterwards, or the exception raised. *)
Inductive commit_result :=
| Committed (u : User.t)
| IntegrityError
| SQLAlchemyError.

(** A value bound to a text column. *)
Inductive bound :=
| Null
| Text (s : string)
| Refused.

Definition bind_text (e : env) (v : json) : bound :=
  match v with
  | JNull => Null
  | JStr s => Text s
  | _ => match text_of e v with Some s => Text s | None => Refused end
  end.

(** Is [email] the email of a row other than [uid]? *)
Definition email_taken (tbl : gmap string row) (uid email : string) : bool :=
  existsb (fun kr => negb (String.eqb (fst kr) uid) && String.eqb (col_email (snd kr)) email)
          (map_to_list tbl).

(** The constraints of the table: [id] is the primary key, [name] is
    [nullable=False], [email] is [unique=True].  A violation raises
    [IntegrityError]; a value the driver does not bind, or a storage
    failure, raises another [SQLAlchemyError]; in both cases the table is
    left as it was.  The age is bound as it is: it is taken to fit the
    INTEGER column. *)
Definition flush (e : env) (w : work) (tbl : gmap string row) : commit_result * gmap string row :=
  if storage_fault e then (SQLAlchemyError, tbl) else
  match w with
  | Add u =>
      match bind_text e (User.name u) with
      | Refused => (SQLAlchemyError, tbl)
      | Null => (IntegrityError, tbl)
      | Text n =>
          if bool_decide (is_Some (tbl !! User.id u))
             || email_taken tbl (User.id u) (User.email u)
          then (IntegrityError, tbl)
          else let r := Row n (User.email u) (User.age u) in
               (Committed (User.load (User.id u) r), <[User.id u := r]> tbl)
      end
  | Dirty u =>
      match bind_text e (User.name u) with
      | Refused => (SQLAlchemyError, tbl)
      | Null => (IntegrityError, tbl)
      | Text n =>
          if email_taken tbl (User.id u) (User.email u)
          then (IntegrityError, tbl)
          else let r := Row n (User.email u) (User.age u) in
               (Committed (User.load (User.id u) r), <[User.id u := r]> tbl)
      end
  | Deleted u => (Committed u, delete (User.id u) tbl)
  end.

Definition session_add (u : User.t) : M unit := log (SessionAdd (User.id u)).
Definition session_delete (u : User.t) : M unit := log (SessionDelete (User.id u)).
Definition session_rollback : M unit := log SessionRollback.

Definition session_commit (e : env) (w : work) : M commit_result := fun st =>
  let (r, tbl) := flush e w (table st) in
  (Val r, State tbl (cache st) (trace st ++ [SessionCommit])).

(** ** The request handlers *)

(** POST /users (p4.py, lines 36-57) *)
Definition create_user (e : env) (data : json) : M response :=
  complete ← (if truthy data then lift (py_all_in ["name"; "email"; "age"] data)
              else mret false);
  if negb complete then return_ (jsonify (error "Missing fields"), 400) else
  data_email ← lift (py_getitem data "email");
  match data_email with
  | JStr email =>
      if negb (is_valid_email email) then return_ (jsonify (error "Invalid email"), 400) else
      data_age ← lift (py_getitem data "age");
      match as_int data_age with
      | None => return_ (jsonify (error "Age must be a positive integer"), 400)
      | Some age =>
          if (age <=? 0)%Z then return_ (jsonify (error "Age must be a positive integer"), 400) else
          data_name ← lift (py_getitem data "name");
          let user := User.mk (uuid4 e) data_name email age in
          session_add user;;
          r ← session_commit e (Add user);
          match r with
          | Committed user =>
              redis_setex e (user_key (User.id user)) CACHE_TIMEOUT
                          (json_dumps (User.to_dict user));;
              mret (jsonify (User.to_dict user), 201)
          | IntegrityError =>
              session_rollback;;
              mret (jsonify (error "Email already exists"), 400)
          | SQLAlchemyError =>
              session_rollback;;
              mret (jsonify (error "Database error"), 500)
          end
      end
  | _ => raise TypeError
  end.

(** GET /users/<user_id> (p4.py, lines 59-71) *)
Definition get_user (e : env) (user_id : string) : M response :=
  cached_user ← redis_get e (user_key user_id);
  match cached_user with
  | Some s => mret (jsonify (json_loads s), 200)
  | None =>
      user ← query_get user_id;
      match user with
      | None => mret (jsonify (error "User not found"), 404)
      | Some user =>
          let user_data := User.to_dict user in
          redis_setex e (user_key (User.id user)) CACHE_TIMEOUT (json_dumps user_data);;
          mret (jsonify user_data, 200)
      end
  end.

(** PUT /users/<user_id> (p4.py, lines 73-103) *)
Definition update_user (e : env) (user_id : string) (data : json) : M response :=
  if negb (truthy data) then return_ (jsonify (error "No data provided"), 400) else
  found ← query_get user_id;
  match found with
  | None => return_ (jsonify (error "User not found"), 404)
  | Some user =>
      user ← (has_name ← lift (py_in "name" data);
              if has_name : bool then
                v ← lift (py_getitem data "name");
                mret (User.set_name v user)
              else mret user);
      user ← (has_email ← lift (py_in "email" data);
              if has_email : bool then
                v ← lift (py_getitem data "email");
                match v with
                | JStr email =>
                    if negb (is_valid_email email)
                    then return_ (jsonify (error "Invalid email"), 400)
                    else mret (User.set_email email user)
                | _ => raise TypeError
                end
              else mret user);
      user ← (has_age ← lift (py_in "age" data);
              if has_age : bool then
                v ← lift (py_getitem data "age");
                match as_int v with
                | None => return_ (jsonify (error "Age must be a positive integer"), 400)
                | Some age =>
                    if (age <=? 0)%Z
                    then return_ (jsonify (error "Age must be a positive integer"), 400)
                    else mret (User.set_age age user)
                end
              else mret user);
      r ← session_commit e (Dirty user);
      match r with
      | Committed user =>
          redis_delete (user_key (User.id user));;
          mret (jsonify (User.to_dict user), 200)
      | IntegrityError =>
          session_rollback;;
          mret (jsonify (error "Email already exists"), 400)
      | SQLAlchemyError =>
          session_rollback;;
          mret (jsonify (error "Database error"), 500)
      end
  end.

(** DELETE /users/<user_id> (p4.py, lines 105-118) *)
Definition delete_user (e : env) (user_id : string) : M response :=
  found ← query_get user_id;
  match found with
  | None => return_ (jsonify (error "User not found"), 404)
  | Some user =>
      session_delete user;;
      r ← session_commit e (Deleted user);
      match r with
      | Committed user =>
          redis_delete (user_key (User.id user));;
          mret (jsonify (message "User deleted successfully"), 200)
      | IntegrityError | SQLAlchemyError =>
          session_rollback;;
          mret (jsonify (error "Database error"), 500)
      end
  end.

(** GET /users (p4.py, lines 120-123) *)
Definition get_all_users : M response :=
  users ← query_all;
  mret (jsonify (JArr (map User.to_dict users)), 200).

(** The routes of the application, with the body [request.get_json()]
    returned for those that read one. *)
Inductive request :=
| POST_users (data : json)
| GET_user (user_id : string)
| PUT_user (user_id : string) (data : json)
| DELETE_user (user_id : string)
| GET_users.

Definition handle (e : env) (req : request) : M response :=
  match req with
  | POST_users data => create_user e data
  | GET_user user_id => get_user e user_id
  | PUT_user user_id data => update_user e user_id data
  | DELETE_user user_id => delete_user e user_id
  | GET_users => get_all_users
  end.

Arguments obj : simpl never.
Arguments error : simpl never.
Arguments message : simpl never.
Arguments User.to_dict : simpl never.
Arguments user_key : simpl never.
Arguments is_valid_email : simpl never.
Arguments email_taken : simpl never.

(** ** Notions used by the statements *)

(** What a create does once its body passed the checks: the commit of the
    new object and what follows it. *)
Definition create_commit (e : env) (user : User.t) (st : state) : outcome * state :=
  match flush e (Add user) (table st) with
  | (Committed u, tbl) =>
      (Response (User.to_dict u) 201,
       State tbl
             (<[user_key (User.id u) := Entry (json_dumps (User.to_dict u)) (now e + CACHE_TIMEOUT)]>
                (cache st))
             (trace st ++ [SessionAdd (User.id user); SessionCommit;
                           RedisSetex (user_key (User.id u)) CACHE_TIMEOUT]))
  | (IntegrityError, tbl) =>
      (Response (error "Email already exists") 400,
       State tbl (cache st)
             (trace st ++ [SessionAdd (User.id user); SessionCommit; SessionRollback]))
  | (SQLAlchemyError, tbl) =>
      (Response (error "Database error") 500,
       State tbl (cache st)
             (trace st ++ [SessionAdd (User.id user); SessionCommit; SessionRollback]))
  end.

(** The bodies that pass the checks of a create, with the object built. *)
Definition create_accepts (e : env) (data : json) (user : User.t) : Prop :=
  exists v,
    truthy data = true /\
    py_getitem data "name" = Ok (User.name user) /\
    py_getitem data "email" = Ok (JStr (User.email user)) /\
    is_valid_email (User.email user) = true /\
    py_getitem data "age" = Ok v /\
    as_int v = Some (User.age user) /\
    0 < User.age user /\
    User.id user = uuid4 e.

(** The ways a create ends before its commit. *)
Definition create_rejects (o : outcome) : Prop :=
  o = Response (error "Missing fields") 400 \/
  o = Response (error "Invalid email") 400 \/
  o = Response (error "Age must be a positive integer") 400 \/
  exists x, o = Uncaught x.

(** The object an update commits: each attribute is the one loaded, or the
    one the body carries when it has the key and the value passes its
    check. *)
Definition patched (data : json) (u0 u : User.t) : Prop :=
  User.id u = User.id u0 /\
  (py_in "name" data = Ok false /\ User.name u = User.name u0 \/
   py_in "name" data = Ok true /\ py_getitem data "name" = Ok (User.name u)) /\
  (py_in "email" data = Ok false /\ User.email u = User.email u0 \/
   py_in "email" data = Ok true /\ py_getitem data "email" = Ok (JStr (User.email u)) /\
   is_valid_email (User.email u) = true) /\
  (py_in "age" data = Ok false /\ User.age u = User.age u0 \/
   py_in "age" data = Ok true /\ 0 < User.age u /\
   exists v, py_getitem data "age" = Ok v /\ as_int v = Some (User.age u)).

(** What an update does once its body passed the checks. *)
Definition update_commit (e : env) (user : User.t) (st : state) : outcome * state :=
  match flush e (Dirty user) (table st) with
  | (Committed u, tbl) =>
      (Response (User.to_dict u) 200,
       State tbl (delete (user_key (User.id u)) (cache st))
             (trace st ++ [QueryGet (User.id user); SessionCommit;
                           RedisDelete (user_key (User.id u))]))
  | (IntegrityError, tbl) =>
      (Response (error "Email already exists") 400,
       State tbl (cache st)
             (trace st ++ [QueryGet (User.id user); SessionCommit; SessionRollback]))
  | (SQLAlchemyError, tbl) =>
      (Response (error "Database error") 500,
       State tbl (cache st)
             (trace st ++ [QueryGet (User.id user); SessionCommit; SessionRollback]))
  end.

(** The ways an update of an existing id ends before its commit. *)
Definition update_rejects (o : outcome) : Prop :=
  o = Response (error "Invalid email") 400 \/
  o = Response (error "Age must be a positive integer") 400 \/
  exists x, o = Uncaught x.

(** The three assignments of an update (p4.py, lines 83-84, 85-88 and
    89-92), and what follows them (lines 94-103). *)
Definition patch_name (data : json) (user : User.t) : M User.t :=
  has_name ← lift (py_in "name" data);
  if has_name : bool then
    v ← lift (py_getitem data "name");
    mret (User.set_name v user)
  else mret user.

Definition patch_email (data : json) (user : User.t) : M User.t :=
  has_email ← lift (py_in "email" data);
  if has_email : bool then
    v ← lift (py_getitem data "email");
    match v with
    | JStr email =>
        if negb (is_valid_email email)
        then return_ (jsonify (error "Invalid email"), 400)
        else mret (User.set_email email user)
    | _ => raise TypeError
    end
  else mret user.

Definition patch_age (data : json) (user : User.t) : M User.t :=
  has_age ← lift (py_in "age" data);
  if has_age : bool then
    v ← lift (py_getitem data "age");
    match as_int v with
    | None => return_ (jsonify (error "Age must be a positive integer"), 400)
    | Some age =>
        if (age <=? 0)%Z
        then return_ (jsonify (error "Age must be a positive integer"), 400)
        else mret (User.set_age age user)
    end
  else mret user.

Definition commit_update (e : env) (user : User.t) : M response :=
  r ← session_commit e (Dirty user);
  match r with
  | Committed user =>
      redis_delete (user_key (User.id user));;
      mret (jsonify (User.to_dict user), 200)
  | IntegrityError =>
      session_rollback;;
      mret (jsonify (error "Email already exists"), 400)
  | SQLAlchemyError =>
      session_rollback;;
      mret (jsonify (error "Database error"), 500)
  end.

(** A block that assigns an attribute leaves the state as it is; when it
    ends the handler, it does so with [r]. *)
Definition block_ends (b : M User.t) (st : state) (P : User.t -> Prop) : Prop :=
  match b st with
  | (Val u, st') => st' = st /\ P u
  | (Exit r, st') =>
      st' = st /\
      (r = (error "Invalid email", 400) \/ r = (error "Age must be a positive integer", 400))
  | (Raise x, st') => st' = st
  end.

(** The answers that report a validation failure. *)
Definition validation_messages : list string :=
  ["Missing fields"; "Invalid email"; "Age must be a positive integer"; "No data provided"].

Definition validation_failure (o : outcome) : Prop :=
  exists msg, In msg validation_messages /\ o = Response (error msg) 400.

(** The calls a request has made when it reports a validation failure. *)
Definition reads_before_validation (req : request) : list event :=
  match req with
  | PUT_user user_id data => if truthy data then [QueryGet user_id] else []
  | _ => []
  end.

(** [email] is the email of a committed row; of a committed row other
    than [uid]. *)
Definition email_in_use (tbl : gmap string row) (email : string) : Prop :=
  exists k r, tbl !! k = Some r /\ col_email r = email.

Definition email_of_other (tbl : gmap string row) (uid email : string) : Prop :=
  exists k r, tbl !! k = Some r /\ k <> uid /\ col_email r = email.

(** *** A store with one user, for the examples

    The request environment [e0] draws the uuid "u2" at time 1000, with a
    working store that refuses values that are not text for a text column;
    [st1] holds the user "u1" and an empty cache.  The emails carry the
    backslash that [is_valid_email] asks for. *)
Definition e0 : env := Env "u2" 1000 false (fun _ => None).
Definition ann : row := Row "Ann" "ann@x\.org" 30.
Definition st1 : state := State {[ "u1" := ann ]} ∅ [].

Definition carol_body : json :=
  obj [("name", JStr "Carol"); ("email", JStr "carol@x\.org"); ("age", JInt 27)].

Definition bob_body : json :=
  obj [("name", JStr "Bob"); ("email", JStr "ann@x\.org"); ("age", JInt 41)].

(** ** Notions used by the further properties *)

(** Are all the characters of [s] in the set? *)
Fixpoint all_in (cs : cset) (s : string) : bool :=
  match s with
  | EmptyString => true
  | String c s' => in_cset cs c && all_in cs s'
  end.

(** The addresses of the pattern of [is_valid_email]: a local part, [@],
    a host, a backslash, one character that is not a newline, a suffix; the
    three parts are not empty and hold characters of their sets only. *)
Definition address (s : string) : Prop :=
  exists l h d x,
    s = l +:+ String "@" (h +:+ String "\" (String d x)) /\
    l <> "" /\ all_in cs_local l = true /\
    h <> "" /\ all_in cs_host h = true /\
    d <> newline /\
    x <> "" /\ all_in cs_suffix x = true.

(** What a request did to the two stores: nothing; or a read filled the
    cache entry of its id; or a create inserted a row and its cache entry;
    or an update replaced a row and deleted its cache entry; or a delete
    removed a row and its cache entry. *)
Inductive effect (e : env) (st : state) : request -> outcome -> state -> Prop :=
| eff_none req o st' :
    table st' = table st -> cache st' = cache st ->
    (forall body, o <> Response body 201) ->
    (forall body, o = Response body 200 -> exists uid, req = GET_user uid \/ req = GET_users) ->
    effect e st req o st'
| eff_fill uid r st' :
    table st !! uid = Some r ->
    table st' = table st ->
    cache st' = <[user_key uid :=
                   Entry (json_dumps (User.to_dict (User.load uid r))) (now e + CACHE_TIMEOUT)]>
                  (cache st) ->
    effect e st (GET_user uid) (Response (User.to_dict (User.load uid r)) 200) st'
| eff_insert data r st' :
    table st !! uuid4 e = None ->
    ~ email_in_use (table st) (col_email r) ->
    table st' = <[uuid4 e := r]> (table st) ->
    cache st' = <[user_key (uuid4 e) :=
                   Entry (json_dumps (User.to_dict (User.load (uuid4 e) r))) (now e + CACHE_TIMEOUT)]>
                  (cache st) ->
    effect e st (POST_users data) (Response (User.to_dict (User.load (uuid4 e) r)) 201) st'
| eff_update uid data r r' st' :
    table st !! uid = Some r ->
    ~ email_of_other (table st) uid (col_email r') ->
    table st' = <[uid := r']> (table st) ->
    cache st' = delete (user_key uid) (cache st) ->
    effect e st (PUT_user uid data) (Response (User.to_dict (User.load uid r')) 200) st'
| eff_delete uid r st' :
    table st !! uid = Some r ->
    table st' = delete uid (table st) ->
    cache st' = delete (user_key uid) (cache st) ->
    effect e st (DELETE_user uid) (Response (message "User deleted successfully") 200) st'.

(** Every entry of the cache, expired or not, is the entry of the key of
    an id that has a row, and holds that row. *)
Definition coherent (st : state) : Prop :=
  forall k en, cache st !! k = Some en ->
    exists uid r, k = user_key uid /\ table st !! uid = Some r /\
                  value en = json_dumps (User.to_dict (User.load uid r)).

(** No two rows have the same email. *)
Definition unique_emails (tbl : gmap string row) : Prop :=
  forall k1 k2 r1 r2, tbl !! k1 = Some r1 -> tbl !! k2 = Some r2 ->
    col_email r1 = col_email r2 -> k1 = k2.

(** The id a request is about. *)
Definition target (e : env) (req : request) : option string :=
  match req with
  | POST_users _ => Some (uuid4 e)
  | GET_user uid | PUT_user uid _ | DELETE_user uid => Some uid
  | GET_users => None
  end.

(** The outcomes 200 and 201. *)
Definition succeeded (o : outcome) : Prop :=
  exists body, o = Response body 200 \/ o = Response body 201.

(** The requests that change the table when they succeed. *)
Definition is_write (req : request) : bool :=
  match req with
  | POST_users _ | PUT_user _ _ | DELETE_user _ => true
  | GET_user _ | GET_users => false
  end.

(** The status codes each route answers with. *)
Definition statuses (req : request) : list Z :=
  match req with
  | POST_users _ => [201; 400; 500]
  | GET_user _ => [200; 404]
  | PUT_user _ _ => [200; 400; 404; 500]
  | DELETE_user _ => [200; 404; 500]
  | GET_users => [200]
  end.

(** [st1] after a read of "u1" at time 1000 filled the cache; a request
    environment that draws the id of an existing row; one at time [t]. *)
Definition st2 : state :=
  State {[ "u1" := ann ]}
        {[ "user:u1" := Entry (json_dumps (User.to_dict (User.load "u1" ann))) 1300 ]}
        [].

Definition e_collide : env := Env "u1" 1000 false (fun _ => None).


(** ** Proof support *)

Ltac unfold_monad :=
  unfold run, handle, create_user, get_user, update_user, delete_user, get_all_users,
    session_add, session_delete, session_rollback, session_commit,
    redis_get, redis_setex, redis_delete, query_get, query_all, log, lift, return_, raise,
    mbind, M_bind, mret, M_ret, jsonify in *.

Ltac handler_cases :=
  unfold_monad; simpl in *; repeat (case_match; simplify_eq/=; try done).

(** ** The email pattern *)

(** *** The matcher decides the language of a pattern *)

Lemma append_empty (s1 s2 : string) : s1 +:+ s2 = "" -> s1 = "" /\ s2 = "".
Proof. by destruct s1. Qed.

Lemma append_cons (a : ascii) (s1 s2 : string) :
  String a s1 +:+ s2 = String a (s1 +:+ s2).
Proof. reflexivity. Qed.

Lemma lang_seq_inv r1 r2 s :
  lang (Seq r1 r2) s -> exists s1 s2, s = s1 +:+ s2 /\ lang r1 s1 /\ lang r2 s2.
Proof. inversion 1; subst; eauto. Qed.

Lemma lang_alt_inv r1 r2 s : lang (Alt r1 r2) s -> lang r1 s \/ lang r2 s.
Proof. inversion 1; subst; eauto. Qed.

Lemma lang_star_cons_inv r c s :
  lang (Star r) (String c s) ->
  exists s1 s2, s = s1 +:+ s2 /\ lang r (String c s1) /\ lang (Star r) s2.
Proof.
  intros H. remember (Star r) as r' eqn:Hr. remember (String c s) as t eqn:Ht.
  induction H as [| | | | | | |r0 s1 s2 H1 _ H2 IH2]; try done.
  injection Hr as ->. destruct s1 as [|a s1].
  - by apply IH2.
  - rewrite append_cons in Ht. injection Ht as -> <-. eauto.
Qed.

Lemma nullable_lang r : nullable r = true <-> lang r "".
Proof.
  induction r; simpl.
  - split; [done|inversion 1].
  - split; [constructor|done].
  - split; [done|inversion 1].
  - split; [done|inversion 1].
  - rewrite andb_true_iff, IHr1, IHr2. split.
    + intros [H1 H2]. by apply (lang_seq _ _ "" "").
    + intros (s1 & s2 & Hs & H1 & H2)%lang_seq_inv.
      symmetry in Hs. apply append_empty in Hs as [-> ->]. done.
  - rewrite orb_true_iff, IHr1, IHr2. split.
    + intros [H|H]; [by apply lang_alt_l | by apply lang_alt_r].
    + apply lang_alt_inv.
  - split; [constructor|done].
Qed.

Lemma deriv_lang c r s : lang (deriv c r) s <-> lang r (String c s).
Proof.
  revert s. induction r; intros s; simpl.
  - split; inversion 1.
  - split; inversion 1.
  - destruct (in_cset cs c) eqn:Hin; split.
    + inversion 1. by constructor.
    + inversion 1. constructor.
    + inversion 1.
    + inversion 1. congruence.
  - destruct (Ascii.eqb c newline) eqn:Hc; split.
    + inversion 1.
    + inversion 1; subst. apply Ascii.eqb_eq in Hc. done.
    + inversion 1. constructor. by apply Ascii.eqb_neq.
    + inversion 1. constructor.
  - assert (Hl : lang (Seq (deriv c r1) r2) s ->  lang (Seq r1 r2) (String c s)).
    { intros (s1 & s2 & -> & H1 & H2)%lang_seq_inv.
      apply IHr1 in H1. by apply (lang_seq _ _ (String c s1) s2). }
    assert (Hr : lang (Seq r1 r2) (String c s) ->
                 lang (Seq (deriv c r1) r2) s \/ (lang r1 "" /\ lang (deriv c r2) s)).
    { intros (s1 & s2 & Hs & H1 & H2)%lang_seq_inv.
      destruct s1 as [|a s1].
      - change ("" +:+ s2) with s2 in Hs. subst s2. right. split; [done|]. by apply IHr2.
      - rewrite append_cons in Hs. injection Hs as <- ->. left.
        apply lang_seq; [|done]. by apply IHr1. }
    destruct (nullable r1) eqn:Hn; split.
    + intros [H|H]%lang_alt_inv; [by apply Hl|].
      apply IHr2 in H. apply nullable_lang in Hn. by apply (lang_seq _ _ "" (String c s)).
    + intros [H|[_ H]]%Hr; [by apply lang_alt_l | by apply lang_alt_r].
    + apply Hl.
    + intros [H|[H _]]%Hr; [done|]. apply nullable_lang in H. congruence.
  - split.
    + intros [H|H]%lang_alt_inv;
        [apply lang_alt_l; by apply IHr1 | apply lang_alt_r; by apply IHr2].
    + intros [H|H]%lang_alt_inv;
        [apply lang_alt_l; by apply IHr1 | apply lang_alt_r; by apply IHr2].
  - split.
    + intros (s1 & s2 & -> & H1 & H2)%lang_seq_inv.
      apply IHr in H1. by apply (lang_star_cons _ (String c s1) s2).
    + intros (s1 & s2 & -> & H1 & H2)%lang_star_cons_inv.
      apply lang_seq; [|done]. by apply IHr.
Qed.

(** The matcher decides the language of the pattern. *)
Lemma accepts_lang r s : accepts r s = true <-> lang r s.
Proof.
  revert r. induction s as [|c s IH]; intros r; simpl.
  - apply nullable_lang.
  - rewrite IH. apply deriv_lang.
Qed.

(** *** Characters every match has, characters no match has *)

Lemma in_range_single (a c : ascii) : in_range a (c, c) = true -> a = c.
Proof.
  unfold in_range. simpl. intros H. apply andb_prop in H as [H1 H2].
  apply N.leb_le in H1, H2.
  rewrite <- (ascii_N_embedding a), <- (ascii_N_embedding c). f_equal. lia.
Qed.

Lemma needs_in_cset (c a : ascii) (cs : cset) :
  needs c (Chars cs) = true -> in_cset cs a = true -> a = c.
Proof.
  simpl. unfold in_cset. rewrite forallb_forall, existsb_exists.
  intros Hall ([lo hi] & Hin & Hr). apply Hall in Hin. simpl in Hin.
  apply andb_prop in Hin as [Hlo Hhi].
  apply Ascii.eqb_eq in Hlo, Hhi. subst. by apply in_range_single.
Qed.

Lemma needs_not_nullable (c : ascii) (r : regex) :
  needs c r = true -> nullable r = false.
Proof.
  induction r; simpl; intros H; try done.
  - apply orb_prop in H as [H|H]; [rewrite IHr1 | rewrite IHr2]; try done.
    apply andb_false_r.
  - apply andb_prop in H as [H1 H2]. by rewrite IHr1, IHr2.
Qed.

Lemma needs_deriv (c a : ascii) (r : regex) :
  a <> c -> needs c r = true -> needs c (deriv a r) = true.
Proof.
  intros Hne. induction r; intros H; try done.
  - simpl. destruct (in_cset cs a) eqn:Hin; [|done].
    by apply (needs_in_cset c a) in H.
  - simpl in H. simpl. destruct (nullable r1) eqn:Hn1; simpl.
    + apply orb_prop in H as [H|H].
      * apply needs_not_nullable in H. congruence.
      * rewrite H, IHr2 by done. by rewrite orb_true_r.
    + apply orb_prop in H as [H|H].
      * by rewrite IHr1.
      * rewrite H. apply orb_true_r.
  - simpl in *. apply andb_prop in H as [H1 H2]. by rewrite IHr1, IHr2.
Qed.

(** A string matched by a pattern that needs [c] contains [c]. *)
Lemma needs_occurs (c : ascii) (s : string) (r : regex) :
  needs c r = true -> accepts r s = true -> occurs c s = true.
Proof.
  revert r. induction s as [|a s IH]; simpl; intros r Hn Ha.
  - apply needs_not_nullable in Hn. congruence.
  - destruct (Ascii.eqb a c) eqn:Hac; [done|]. simpl.
    apply Ascii.eqb_neq in Hac. eauto using needs_deriv.
Qed.

Lemma dead_not_nullable (r : regex) : dead r = true -> nullable r = false.
Proof.
  induction r; simpl; intros H; try done.
  - apply orb_prop in H as [H|H]; [rewrite IHr1 | rewrite IHr2]; try done.
    apply andb_false_r.
  - apply andb_prop in H as [H1 H2]. by rewrite IHr1, IHr2.
Qed.

Lemma dead_deriv (a : ascii) (r : regex) : dead r = true -> dead (deriv a r) = true.
Proof.
  induction r; simpl; intros H; try done.
  - destruct (nullable r1) eqn:Hn1; simpl.
    + apply orb_prop in H as [H|H].
      * apply dead_not_nullable in H. congruence.
      * rewrite H, IHr2 by done. by rewrite orb_true_r.
    + apply orb_prop in H as [H|H].
      * by rewrite IHr1.
      * rewrite H. apply orb_true_r.
  - apply andb_prop in H as [H1 H2]. by rewrite IHr1, IHr2.
Qed.

(** A dead pattern matches no string. *)
Lemma dead_accepts (s : string) (r : regex) : dead r = true -> accepts r s = false.
Proof.
  revert r. induction s as [|a s IH]; simpl; intros r H.
  - by apply dead_not_nullable.
  - by apply IH, dead_deriv.
Qed.

Lemma avoids_deriv_dead (c : ascii) (r : regex) :
  avoids c r = true -> dead (deriv c r) = true.
Proof.
  induction r; simpl; intros H; try done.
  - apply negb_true_iff in H. by rewrite H.
  - by rewrite H.
  - apply andb_prop in H as [H1 H2].
    destruct (nullable r1); simpl; rewrite IHr1 by done; [|done]. by rewrite IHr2.
  - apply andb_prop in H as [H1 H2]. by rewrite IHr1, IHr2.
  - by rewrite IHr.
Qed.

Lemma avoids_deriv (c a : ascii) (r : regex) :
  avoids c r = true -> avoids c (deriv a r) = true.
Proof.
  induction r; simpl; intros H; try done.
  - by destruct (in_cset cs a).
  - by destruct (Ascii.eqb a newline).
  - apply andb_prop in H as [H1 H2].
    destruct (nullable r1); simpl; rewrite IHr1, H2 by done; [|done]. by rewrite IHr2.
  - apply andb_prop in H as [H1 H2]. by rewrite IHr1, IHr2.
  - by rewrite IHr, H.
Qed.

(** A string matched by a pattern that avoids [c] does not contain [c]. *)
Lemma avoids_occurs (c : ascii) (s : string) (r : regex) :
  avoids c r = true -> accepts r s = true -> occurs c s = false.
Proof.
  revert r. induction s as [|a s IH]; simpl; intros r Hn Ha; [done|].
  destruct (Ascii.eqb a c) eqn:Hac; simpl.
  - apply Ascii.eqb_eq in Hac. subst a.
    rewrite dead_accepts in Ha; [done|]. by apply avoids_deriv_dead.
  - eauto using avoids_deriv.
Qed.

Lemma chomp_occurs (c : ascii) (s s' : string) :
  chomp s = Some s' -> occurs c s' = true -> occurs c s = true.
Proof.
  revert s'. induction s as [|a s IH]; intros s'; [done|].
  simpl. destruct s as [|b s].
  - destruct (Ascii.eqb a newline); [|done]. by intros [= <-].
  - destruct (chomp (String b s)) as [t|]; [|done]. simpl.
    intros [= <-]. simpl. destruct (Ascii.eqb a c); [done|]. simpl. by apply IH.
Qed.

(** *** What [is_valid_email] accepts *)

(** The validator on strings around the pattern: any character but a
    newline may follow the backslash, a newline may end the address, and
    the suffix may not be empty. *)
Lemma is_valid_email_examples :
  is_valid_email "a@b\xc" = true /\
  is_valid_email "a.+-_@b-\..-x" = true /\
  is_valid_email ("a@b\.c" +:+ String newline "") = true /\
  is_valid_email ("a@b\" +:+ String newline "c") = false /\
  is_valid_email "a@b\." = false /\
  is_valid_email "@b\.c" = false.
Proof. split_and!; reflexivity. Qed.

(** Every address the validator accepts contains a backslash. *)
Lemma is_valid_email_backslash (email : string) :
  is_valid_email email = true -> occurs "\" email = true.
Proof.
  unfold is_valid_email, py_match. intros H. apply orb_prop in H as [H|H].
  - by apply (needs_occurs _ _ email_pattern).
  - destruct (chomp email) as [s'|] eqn:Hc; [|done].
    apply (chomp_occurs _ _ _ Hc). by apply (needs_occurs _ _ email_pattern).
Qed.

(** No address of the specified pattern contains one, so the validator
    rejects all of them. *)
Lemma spec_valid_email_no_backslash (email : string) :
  spec_valid_email email = true -> occurs "\" email = false.
Proof. by apply avoids_occurs. Qed.

Lemma spec_valid_email_rejected (email : string) :
  spec_valid_email email = true -> is_valid_email email = false.
Proof.
  intros H. apply spec_valid_email_no_backslash in H.
  destruct (is_valid_email email) eqn:Hv; [|done].
  apply is_valid_email_backslash in Hv. congruence.
Qed.

(** ** The handlers *)

(** *** The commit *)

(** [email_taken] decides [email_of_other]. *)
Lemma email_taken_spec (tbl : gmap string row) (uid email : string) :
  email_taken tbl uid email = true <->
  exists k r, tbl !! k = Some r /\ k <> uid /\ col_email r = email.
Proof.
  unfold email_taken. rewrite existsb_exists. split.
  - intros ([k r] & Hin & Hb). apply andb_prop in Hb as [Hk He].
    exists k, r. simpl in *. split; [|split].
    + apply elem_of_map_to_list. by apply list_elem_of_In.
    + apply negb_true_iff, String.eqb_neq in Hk. done.
    + by apply String.eqb_eq.
  - intros (k & r & Hl & Hk & He). exists (k, r). split.
    + apply list_elem_of_In. by apply elem_of_map_to_list.
    + simpl. apply andb_true_intro. split.
      * by apply negb_true_iff, String.eqb_neq.
      * by apply String.eqb_eq.
Qed.

(** A commit that raises leaves the table as it was. *)
Lemma flush_not_committed e w tbl r tbl' :
  flush e w tbl = (r, tbl') -> (forall u, r <> Committed u) -> tbl' = tbl.
Proof.
  unfold flush. intros H Hr.
  repeat case_match; simplify_eq; try done; by edestruct Hr.
Qed.

(** A storage failure is a [SQLAlchemyError], whatever is flushed. *)
Lemma flush_fault e w tbl :
  storage_fault e = true -> flush e w tbl = (SQLAlchemyError, tbl).
Proof. unfold flush. by intros ->. Qed.

(** What a commit that succeeds has checked and written. *)
Lemma flush_committed e w tbl u' tbl' :
  flush e w tbl = (Committed u', tbl') ->
  storage_fault e = false /\
  match w with
  | Add u =>
      tbl !! User.id u = None /\ email_taken tbl (User.id u) (User.email u) = false /\
      exists n, bind_text e (User.name u) = Text n /\
        u' = User.load (User.id u) (Row n (User.email u) (User.age u)) /\
        tbl' = <[User.id u := Row n (User.email u) (User.age u)]> tbl
  | Dirty u =>
      email_taken tbl (User.id u) (User.email u) = false /\
      exists n, bind_text e (User.name u) = Text n /\
        u' = User.load (User.id u) (Row n (User.email u) (User.age u)) /\
        tbl' = <[User.id u := Row n (User.email u) (User.age u)]> tbl
  | Deleted u => u' = u /\ tbl' = delete (User.id u) tbl
  end.
Proof.
  unfold flush. intros H.
  destruct (storage_fault e); [done|]. split; [done|].
  destruct w as [u|u|u].
  - destruct (bind_text e (User.name u)) eqn:Hb; try done.
    destruct (bool_decide (is_Some (tbl !! User.id u))) eqn:Hpk; simpl in H; [done|].
    destruct (email_taken tbl (User.id u) (User.email u)) eqn:Het; [done|].
    simplify_eq. apply bool_decide_eq_false in Hpk.
    split; [by apply eq_None_not_Some|]. eauto 10.
  - destruct (bind_text e (User.name u)) eqn:Hb; try done.
    destruct (email_taken tbl (User.id u) (User.email u)) eqn:Het; [done|].
    simplify_eq. eauto 10.
  - by simplify_eq.
Qed.

(** *** Reads *)

(** The three ways of a read. *)
Lemma run_get_user (e : env) (uid : string) (st : state) :
  run (get_user e uid) st =
  match live e (cache st) (user_key uid) with
  | Some s =>
      (Response (json_loads s) 200,
       State (table st) (cache st) (trace st ++ [RedisGet (user_key uid)]))
  | None =>
      match table st !! uid with
      | None =>
          (Response (error "User not found") 404,
           State (table st) (cache st) (trace st ++ [RedisGet (user_key uid); QueryGet uid]))
      | Some r =>
          let user_data := User.to_dict (User.load uid r) in
          (Response user_data 200,
           State (table st)
                 (<[user_key uid := Entry (json_dumps user_data) (now e + CACHE_TIMEOUT)]> (cache st))
                 (trace st ++ [RedisGet (user_key uid); QueryGet uid;
                               RedisSetex (user_key uid) CACHE_TIMEOUT]))
      end
  end.
Proof.
  unfold_monad. simpl.
  destruct (live e (cache st) (user_key uid)); simpl; [done|].
  destruct (table st !! uid); simpl; by rewrite <- ?app_assoc.
Qed.

(** The three ways of a delete. *)
Lemma run_delete_user (e : env) (uid : string) (st : state) :
  run (delete_user e uid) st =
  match table st !! uid with
  | None =>
      (Response (error "User not found") 404,
       State (table st) (cache st) (trace st ++ [QueryGet uid]))
  | Some r =>
      if storage_fault e then
        (Response (error "Database error") 500,
         State (table st) (cache st)
               (trace st ++ [QueryGet uid; SessionDelete uid; SessionCommit; SessionRollback]))
      else
        (Response (message "User deleted successfully") 200,
         State (delete uid (table st)) (delete (user_key uid) (cache st))
               (trace st ++ [QueryGet uid; SessionDelete uid; SessionCommit;
                             RedisDelete (user_key uid)]))
  end.
Proof.
  unfold_monad. simpl.
  destruct (table st !! uid); simpl; [|done].
  unfold flush. destruct (storage_fault e); simpl; by rewrite <- ?app_assoc.
Qed.

(** *** Writes *)

(** An update with a body, of an id that has no row. *)
Lemma update_nonexistent (e : env) (uid : string) (data : json) (st : state) :
  truthy data = true ->
  table st !! uid = None ->
  run (update_user e uid data) st =
    (Response (error "User not found") 404,
     State (table st) (cache st) (trace st ++ [QueryGet uid])).
Proof.
  intros Ht Hn. unfold_monad. rewrite Ht. simpl. rewrite Hn. reflexivity.
Qed.

(** A create ends before its commit, with the state as it was, or its body
    passed the checks and it ends as the commit decides. *)
Lemma create_user_inv e data st o st' :
  run (create_user e data) st = (o, st') ->
  (create_rejects o /\ st' = st) \/
  (exists user, create_accepts e data user /\ (o, st') = create_commit e user st).
Proof.
  intros H. unfold create_rejects, create_accepts, create_commit.
  handler_cases.
  all: try (left; split; [eauto 6 | done]).
  all: right; eexists (User.mk _ _ _ _); simpl.
  all: rewrite <- ?app_assoc in *; simpl in *.
  all: split;
    [ eexists; split_and!; try done;
      [ by apply negb_false_iff | by apply Z.leb_gt ]
    | match goal with H : flush _ _ _ = _ |- _ => by rewrite H end ].
Qed.

(** An update is its four blocks in sequence. *)
Lemma update_user_unfold (e : env) (user_id : string) (data : json) :
  update_user e user_id data =
  if negb (truthy data) then return_ (jsonify (error "No data provided"), 400) else
  found ← query_get user_id;
  match found with
  | None => return_ (jsonify (error "User not found"), 404)
  | Some user =>
      user ← patch_name data user;
      user ← patch_email data user;
      user ← patch_age data user;
      commit_update e user
  end.
Proof. reflexivity. Qed.

Lemma bind_eq {A B} (m : M A) (f : A -> M B) (st : state) :
  (m ≫= f) st =
  match m st with
  | (Val a, st') => f a st'
  | (Exit r, st') => (Exit r, st')
  | (Raise x, st') => (Raise x, st')
  end.
Proof. reflexivity. Qed.

(** What each block returns, and how it may end the handler. *)
Lemma patch_name_ends data user st :
  block_ends (patch_name data user) st (fun u =>
    User.id u = User.id user /\ User.email u = User.email user /\ User.age u = User.age user /\
    (py_in "name" data = Ok false /\ User.name u = User.name user \/
     py_in "name" data = Ok true /\ py_getitem data "name" = Ok (User.name u))).
Proof.
  unfold block_ends, patch_name. unfold_monad.
  destruct (py_in "name" data) as [[]|]; simpl; [|by eauto 10|done].
  destruct (py_getitem data "name"); simpl; by eauto 10.
Qed.

Lemma patch_email_ends data user st :
  block_ends (patch_email data user) st (fun u =>
    User.id u = User.id user /\ User.name u = User.name user /\ User.age u = User.age user /\
    (py_in "email" data = Ok false /\ User.email u = User.email user \/
     py_in "email" data = Ok true /\ py_getitem data "email" = Ok (JStr (User.email u)) /\
     is_valid_email (User.email u) = true)).
Proof.
  unfold block_ends, patch_email. unfold_monad.
  destruct (py_in "email" data) as [[]|]; simpl; [|by eauto 10|done].
  destruct (py_getitem data "email") as [[]|]; simpl; try done.
  destruct (is_valid_email s) eqn:Hv; simpl; by eauto 10.
Qed.

Lemma patch_age_ends data user st :
  block_ends (patch_age data user) st (fun u =>
    User.id u = User.id user /\ User.name u = User.name user /\ User.email u = User.email user /\
    (py_in "age" data = Ok false /\ User.age u = User.age user \/
     py_in "age" data = Ok true /\ 0 < User.age u /\
     exists v, py_getitem data "age" = Ok v /\ as_int v = Some (User.age u))).
Proof.
  unfold block_ends, patch_age. unfold_monad.
  destruct (py_in "age" data) as [[]|]; simpl; [|by eauto 10|done].
  destruct (py_getitem data "age") as [v|]; simpl; try done.
  destruct (as_int v) as [n|] eqn:Hv; simpl; [|by eauto].
  destruct (n <=? 0)%Z eqn:Hn; simpl; [by eauto|].
  apply Z.leb_gt in Hn. split_and!; try done. right. eauto 10.
Qed.

Lemma commit_update_run e user st :
  run (commit_update e user) st =
  match flush e (Dirty user) (table st) with
  | (Committed u, tbl) =>
      (Response (User.to_dict u) 200,
       State tbl (delete (user_key (User.id u)) (cache st))
             (trace st ++ [SessionCommit; RedisDelete (user_key (User.id u))]))
  | (IntegrityError, tbl) =>
      (Response (error "Email already exists") 400,
       State tbl (cache st) (trace st ++ [SessionCommit; SessionRollback]))
  | (SQLAlchemyError, tbl) =>
      (Response (error "Database error") 500,
       State tbl (cache st) (trace st ++ [SessionCommit; SessionRollback]))
  end.
Proof.
  unfold commit_update. unfold_monad. simpl.
  destruct (flush e (Dirty user) (table st)) as [[] tbl]; simpl;
    by rewrite <- ?app_assoc.
Qed.

(** An update ends on an empty body; on an id that has no row; on a field
    that fails its check; or as the commit of the patched object decides.
    Only the last changes the stores. *)
Lemma update_user_inv e uid data st o st' :
  run (update_user e uid data) st = (o, st') ->
  (truthy data = false /\ o = Response (error "No data provided") 400 /\ st' = st) \/
  (truthy data = true /\ table st !! uid = None /\
   o = Response (error "User not found") 404 /\
   st' = State (table st) (cache st) (trace st ++ [QueryGet uid])) \/
  (truthy data = true /\ is_Some (table st !! uid) /\ update_rejects o /\
   st' = State (table st) (cache st) (trace st ++ [QueryGet uid])) \/
  (truthy data = true /\
   exists r user, table st !! uid = Some r /\ patched data (User.load uid r) user /\
     (o, st') = update_commit e user st).
Proof.
  intros H.
  destruct (truthy data) eqn:Ht;
    [|left; unfold_monad; rewrite Ht in H; by simplify_eq/=].
  right.
  destruct (table st !! uid) as [r|] eqn:Hl;
    [|left; rewrite update_nonexistent in H by done; by simplify_eq].
  right. rewrite update_user_unfold, Ht in H. cbn [negb] in H. cbv iota in H.
  set (st1 := State (table st) (cache st) (trace st ++ [QueryGet uid])).
  assert (Hq : query_get uid st = (Val (Some (User.load uid r)), st1))
    by (unfold query_get; by rewrite Hl).
  assert (Hrej : forall r1 : response,
    r1 = (error "Invalid email", 400) \/ r1 = (error "Age must be a positive integer", 400) ->
    (let (body, status) := r1 in (Response body status, st1)) = (o, st') ->
    is_Some (Some r) /\ update_rejects o /\ st' = st1).
  { unfold update_rejects. intros r1 [-> | ->] ?; simplify_eq; eauto 10. }
  assert (Hexn : forall x : exn, (Uncaught x, st1) = (o, st') ->
    is_Some (Some r) /\ update_rejects o /\ st' = st1).
  { unfold update_rejects. intros x ?; simplify_eq; eauto 10. }
  unfold run in H. rewrite bind_eq, Hq in H. cbv beta iota in H.
  rewrite bind_eq in H.
  pose proof (patch_name_ends data (User.load uid r) st1) as Hn.
  unfold block_ends in Hn.
  destruct (patch_name data (User.load uid r) st1) as [[u1|r1|x1] ?];
    cbv beta iota in H;
    [destruct Hn as (-> & Hid1 & He1 & Ha1 & Hn1)
    |destruct Hn as [-> Hn]; left; split; [done|]; by eapply Hrej
    |subst; left; split; [done|]; by eapply Hexn].
  rewrite bind_eq in H.
  pose proof (patch_email_ends data u1 st1) as He.
  unfold block_ends in He.
  destruct (patch_email data u1 st1) as [[u2|r2|x2] ?];
    cbv beta iota in H;
    [destruct He as (-> & Hid2 & Hn2 & Ha2 & He2)
    |destruct He as [-> He]; left; split; [done|]; by eapply Hrej
    |subst; left; split; [done|]; by eapply Hexn].
  rewrite bind_eq in H.
  pose proof (patch_age_ends data u2 st1) as Ha.
  unfold block_ends in Ha.
  destruct (patch_age data u2 st1) as [[u3|r3|x3] ?];
    cbv beta iota in H;
    [destruct Ha as (-> & Hid3 & Hn3 & He3 & Ha3)
    |destruct Ha as [-> Ha]; left; split; [done|]; by eapply Hrej
    |subst; left; split; [done|]; by eapply Hexn].
  right. split; [done|]. exists r, u3. split; [done|].
  split.
  - unfold patched. rewrite Hid3, Hid2, Hid1, Hn3, Hn2, He3.
    rewrite He1 in He2. rewrite Ha2, Ha1 in Ha3. done.
  - pose proof (commit_update_run e u3 st1) as Hc. unfold run in Hc.
    rewrite Hc in H. rewrite <- H.
    unfold update_commit.
    assert (Hid : User.id u3 = uid) by (rewrite Hid3, Hid2, Hid1; done).
    rewrite Hid. subst st1. simpl.
    destruct (flush e (Dirty u3) (table st)) as [[] ?];
      by rewrite <- ?app_assoc.
Qed.

(** A successful commit of a new or changed object: the row written. *)
Lemma flush_write_committed e w user tbl u' tbl' :
  w = Add user \/ w = Dirty user ->
  flush e w tbl = (Committed u', tbl') ->
  exists r,
    u' = User.load (User.id user) r /\ tbl' = <[User.id user := r]> tbl /\
    bind_text e (User.name user) = Text (col_name r) /\
    col_email r = User.email user /\ col_age r = User.age user /\
    (w = Add user -> tbl !! User.id user = None).
Proof.
  intros Hw H. apply flush_committed in H as [_ H].
  destruct Hw as [-> | ->].
  - destruct H as (Hpk & _ & n & Hb & -> & ->). eexists. split_and!; eauto.
  - destruct H as (_ & n & Hb & -> & ->). eexists. split_and!; eauto. done.
Qed.

(** A read of an id whose cache entry is absent, or holds the row of the
    table, returns that row, whether the entry has expired or not. *)
Lemma get_user_after_write (e : env) (uid : string) (r : row) (t : Z) (st : state) :
  table st !! uid = Some r ->
  cache st !! user_key uid = None \/
  cache st !! user_key uid = Some (Entry (json_dumps (User.to_dict (User.load uid r))) t) ->
  fst (run (get_user e uid) st) = Response (User.to_dict (User.load uid r)) 200.
Proof.
  intros Ht Hc. rewrite run_get_user, Ht. unfold live.
  destruct Hc as [-> | ->]; [done|]. simpl.
  by destruct (now e <? t)%Z.
Qed.

(** What a successful update did. *)
Lemma update_user_ok (e : env) (uid : string) (data : json)
    (st : state) (body : json) (st' : state) :
  run (update_user e uid data) st = (Response body 200, st') ->
  exists r r' v,
    table st !! uid = Some r /\
    table st' = <[uid := r']> (table st) /\
    bind_text e v = Text (col_name r') /\
    match py_in "name" data with
    | Ok true => py_getitem data "name" = Ok v
    | _ => v = JStr (col_name r)
    end /\
    match py_in "email" data with
    | Ok true => py_getitem data "email" = Ok (JStr (col_email r'))
    | _ => col_email r' = col_email r
    end /\
    match py_in "age" data with
    | Ok true => exists v, py_getitem data "age" = Ok v /\ as_int v = Some (col_age r')
    | _ => col_age r' = col_age r
    end /\
    body = User.to_dict (User.load uid r') /\
    cache st' = delete (user_key uid) (cache st).
Proof.
  intros H.
  apply update_user_inv in H
    as [(_ & ? & _)|[(_ & _ & ? & _)|[(_ & _ & Hrej & _)|(_ & r & u & Hl & Hp & H)]]];
    [done|done|by destruct Hrej as [?|[?|[? ?]]]|].
  unfold update_commit in H. destruct Hp as (Hid & Hn & He & Ha). simpl in Hid.
  destruct (flush e (Dirty u) (table st)) as [[u'| |] tbl] eqn:Hf; simplify_eq.
  apply flush_write_committed with (user := u) in Hf
    as (r' & -> & -> & Hbn & Hbe & Hba & _); [|by right].
  exists r, r', (User.name u). simpl. split_and!; try done.
  - by destruct Hn as [[-> Hn]|[-> Hn]].
  - destruct He as [[-> He]|(-> & He & _)]; simpl in *; congruence.
  - destruct Ha as [[-> Ha]|(-> & _ & v & ? & ?)]; simpl in *; [congruence|].
    exists v. split; congruence.
Qed.


(** What a successful create did. *)
Lemma create_user_ok (e : env) (data : json) (st : state) (body : json) (st' : state) :
  run (create_user e data) st = (Response body 201, st') ->
  exists r v,
    table st !! uuid4 e = None /\
    table st' = <[uuid4 e := r]> (table st) /\
    py_getitem data "name" = Ok v /\
    bind_text e v = Text (col_name r) /\
    py_getitem data "email" = Ok (JStr (col_email r)) /\
    is_valid_email (col_email r) = true /\
    (exists a, py_getitem data "age" = Ok a /\ as_int a = Some (col_age r)) /\
    0 < col_age r /\
    body = User.to_dict (User.load (uuid4 e) r) /\
    cache st' = <[user_key (uuid4 e) := Entry (json_dumps body) (now e + CACHE_TIMEOUT)]> (cache st).
Proof.
  intros H. apply create_user_inv in H as [[Hrej _] | (user & Hacc & H)];
    [by destruct Hrej as [?|[?|[?|[? ?]]]]|].
  destruct Hacc as (a & _ & Hn & He & Hv & Ha & Hi & Hpos & Hid).
  unfold create_commit in H.
  destruct (flush e (Add user) (table st)) as [[u| |] tbl] eqn:Hf; simplify_eq.
  apply flush_write_committed with (user := user) in Hf
    as (r & -> & -> & Hbn & Hbe & Hba & Hnew); [|by left].
  rewrite Hid in *. simpl. exists r, (User.name user).
  rewrite Hbe, Hba. split_and!; eauto.
Qed.

(** A create that did not succeed left both stores as they were and made
    no call on the cache. *)
Lemma create_user_failed (e : env) (data : json) (st : state) (o : outcome) (st' : state) :
  run (create_user e data) st = (o, st') ->
  (forall body, o <> Response body 201) ->
  table st' = table st /\ cache st' = cache st /\
  exists evs, trace st' = trace st ++ evs /\ forallb is_store_event evs = true.
Proof.
  intros H Hne. apply create_user_inv in H as [[Hrej ->] | (user & Hacc & H)].
  - split_and!; try done. exists []. by rewrite app_nil_r.
  - unfold create_commit in H.
    destruct (flush e (Add user) (table st)) as [[u| |] tbl] eqn:Hf; simplify_eq.
    + by edestruct Hne.
    + apply flush_not_committed in Hf as ->; [|done]. split_and!; try done. by eexists.
    + apply flush_not_committed in Hf as ->; [|done]. split_and!; try done. by eexists.
Qed.

(** Only a dict that has the key can be subscripted by it. *)
Lemma py_getitem_in data k v : py_getitem data k = Ok v -> py_in k data = Ok true.
Proof.
  destruct data; simpl; try done. by destruct (assoc k items).
Qed.

(** A create whose body passes the checks ends as its commit decides. *)
Lemma create_user_accepted e data user st :
  create_accepts e data user -> run (create_user e data) st = create_commit e user st.
Proof.
  destruct user as [uid n em a]. unfold create_accepts. simpl.
  intros (v & Ht & Hn & He & Hv & Ha & Hi & Hpos & ->).
  pose proof (py_getitem_in _ _ _ Hn) as Hn'.
  pose proof (py_getitem_in _ _ _ He) as He'.
  pose proof (py_getitem_in _ _ _ Ha) as Ha'.
  apply Z.leb_gt in Hpos.
  unfold create_commit. unfold_monad. simpl.
  rewrite Ht, Hn', He', Ha'. simpl. rewrite He. simpl. rewrite Hv. simpl.
  rewrite Ha. simpl. rewrite Hi, Hpos. simpl. rewrite Hn. simpl.
  destruct (flush e _ (table st)) as [[] ?]; simpl; by rewrite <- ?app_assoc.
Qed.

(** So does an update of an existing id whose fields pass the checks. *)
Lemma update_user_patched e uid data r user st :
  truthy data = true ->
  table st !! uid = Some r ->
  patched data (User.load uid r) user ->
  run (update_user e uid data) st = update_commit e user st.
Proof.
  intros Ht Hl (Hid & Hn & He & Ha). simpl in Hid.
  rewrite update_user_unfold, Ht. cbn [negb].
  set (st1 := State (table st) (cache st) (trace st ++ [QueryGet uid])).
  assert (Hq : query_get uid st = (Val (Some (User.load uid r)), st1))
    by (unfold query_get; by rewrite Hl).
  set (u1 := User.set_name (User.name user) (User.load uid r)).
  assert (H1 : patch_name data (User.load uid r) st1 = (Val u1, st1)).
  { unfold patch_name. unfold_monad.
    destruct Hn as [[-> Hn]|[-> ->]]; simpl; [|done].
    subst u1. by rewrite Hn. }
  set (u2 := User.set_email (User.email user) u1).
  assert (H2 : patch_email data u1 st1 = (Val u2, st1)).
  { unfold patch_email. unfold_monad.
    destruct He as [[-> He]|(-> & -> & ->)]; simpl; [|done].
    subst u2. by rewrite He. }
  assert (H3 : patch_age data u2 st1 = (Val user, st1)).
  { assert (Hu : forall n, n = User.age user -> User.set_age n u2 = user).
    { intros ? ->. destruct user. simpl in *. by subst. }
    unfold patch_age. unfold_monad.
    destruct Ha as [[-> Ha]|(-> & Hpos & v & -> & ->)]; simpl.
    - rewrite <- (Hu (User.age u2)); [done|]. by rewrite Ha.
    - apply Z.leb_gt in Hpos. rewrite Hpos. by rewrite Hu. }
  pose proof (commit_update_run e user st1) as Hc.
  unfold run in *. rewrite bind_eq, Hq. cbv beta iota.
  rewrite bind_eq, H1. cbv beta iota. rewrite bind_eq, H2. cbv beta iota.
  rewrite bind_eq, H3. cbv beta iota. rewrite Hc.
  unfold update_commit. rewrite Hid. subst st1. simpl.
  destruct (flush e (Dirty user) (table st)) as [[] ?]; by rewrite <- ?app_assoc.
Qed.

(** *** The check on [age] *)

(** The check passes exactly on the values Python takes for integers
    greater than zero. *)
Lemma age_invalid_false (v : json) :
  age_invalid v = false <-> exists n, as_int v = Some n /\ 0 < n.
Proof.
  unfold age_invalid. destruct (as_int v) as [n|].
  - rewrite Z.leb_gt. split; [by eauto|]. by intros (? & [= <-] & ?).
  - split; [done|]. by intros (? & ? & _).
Qed.

(** Integers pass exactly when positive (0 and -5 do not, 1 does); floats,
    strings, null and [False] do not pass. *)
Lemma age_invalid_cases :
  (forall n, age_invalid (JInt n) = false <-> 0 < n) /\
  age_invalid (JInt 0) = true /\
  age_invalid (JInt (-5)) = true /\
  age_invalid (JInt 1) = false /\
  (forall f, age_invalid (JFloat f) = true) /\
  (forall s, age_invalid (JStr s) = true) /\
  age_invalid JNull = true /\
  age_invalid (JBool false) = true.
Proof.
  split_and!; try done.
  intros n. unfold age_invalid. simpl. apply Z.leb_gt.
Qed.

(** ** The claims *)

(** *** Validation *)

(** C1 (the validator accepts exactly the addresses of the specified
    pattern, with a literal dot before the suffix; "a@b.c" accepted and
    "not-an-email" rejected, on create and on update).  The code at the
    address "a@b.c": [is_valid_email] rejects it, though the specified
    pattern matches it, because the pattern of the code asks for a
    backslash and then any character where the specification has the dot;
    it accepts "a@b\.c" instead, which the specified pattern does not
    match.  Both create and update answer "Invalid email" to "a@b.c".
    ("not-an-email" is rejected, as specified.) *)
Theorem is_valid_email_rejects_plain_address :
  is_valid_email "a@b.c" = false /\
  spec_valid_email "a@b.c" = true /\
  is_valid_email "a@b\.c" = true /\
  spec_valid_email "a@b\.c" = false /\
  is_valid_email "not-an-email" = false /\
  run (create_user e0 (obj [("name", JStr "Al"); ("email", JStr "a@b.c"); ("age", JInt 1)])) st1 =
    (Response (error "Invalid email") 400, st1) /\
  run (update_user e0 "u1" (obj [("email", JStr "a@b.c")])) st1 =
    (Response (error "Invalid email") 400, State (table st1) (cache st1) [QueryGet "u1"]).
Proof. split_and!; reflexivity. Qed.

(** C7 (an age is accepted exactly when it is an integer greater than
    zero; booleans and floats are rejected).  The code at the age [true]:
    the check passes, [isinstance(True, int)] holding in Python, and both
    update and create store the age 1.  (Integers are accepted exactly when
    positive and floats are rejected: [age_invalid_cases].) *)
Theorem boolean_age_is_accepted :
  age_invalid (JBool true) = false /\
  run (update_user e0 "u1" (obj [("age", JBool true)])) st1 =
    (Response (User.to_dict (User.load "u1" (Row "Ann" "ann@x\.org" 1))) 200,
     State (<["u1" := Row "Ann" "ann@x\.org" 1]> (table st1)) ∅
           [QueryGet "u1"; SessionCommit; RedisDelete "user:u1"]) /\
  fst (run (create_user e0 (obj [("name", JStr "Carol"); ("email", JStr "carol@x\.org");
                                 ("age", JBool true)])) st1) =
    Response (User.to_dict (User.load "u2" (Row "Carol" "carol@x\.org" 1))) 201.
Proof. split_and!; reflexivity. Qed.

(** C5, as the code has it: a validation failure of a create is reported
    before any call on the Record Store or the Cache Layer; so is the
    empty-body failure of an update, while an invalid email or age of an
    update is reported after one read of the Record Store for the id (and
    no call on the Cache Layer); reading, listing and deleting report no
    validation failure.  In every case the table and the cache are left as
    they were. *)
Theorem validation_leaves_stores_unchanged
    (e : env) (req : request) (st : state) (o : outcome) (st' : state) :
  run (handle e req) st = (o, st') ->
  validation_failure o ->
  table st' = table st /\ cache st' = cache st /\
  trace st' = trace st ++ reads_before_validation req.
Proof.
  intros H (msg & Hm & ->). destruct req as [data|uid|uid data|uid|]; simpl in H.
  - apply create_user_inv in H as [[_ ->] | (user & _ & H)].
    + simpl. by rewrite app_nil_r.
    + exfalso. unfold create_commit in H.
      destruct (flush e (Add user) (table st)) as [[] ?]; simplify_eq.
      simpl in Hm. destruct Hm as [?|[?|[?|[?|[]]]]]; discriminate.
  - exfalso. rewrite run_get_user in H.
    destruct (live e (cache st) (user_key uid)); [by simplify_eq|].
    destruct (table st !! uid); by simplify_eq.
  - apply update_user_inv in H
      as [(Ht & _ & ->)|[(_ & _ & ? & _)|[(Ht & _ & _ & ->)|(_ & r & u & _ & _ & H)]]].
    + simpl. by rewrite Ht, app_nil_r.
    + done.
    + simpl. by rewrite Ht.
    + exfalso. unfold update_commit in H.
      destruct (flush e (Dirty u) (table st)) as [[] ?]; simplify_eq.
      simpl in Hm. destruct Hm as [?|[?|[?|[?|[]]]]]; discriminate.
  - exfalso. rewrite run_delete_user in H.
    destruct (table st !! uid); [|by simplify_eq].
    destruct (storage_fault e); by simplify_eq.
  - exfalso. unfold run, get_all_users, query_all, mbind, M_bind, mret, M_ret in H.
    by simplify_eq.
Qed.

Lemma validation_leaves_stores_unchanged_witness :
  let req := PUT_user "u1" (obj [("name", JStr "Bob"); ("age", JInt 0)]) in
  let o := Response (error "Age must be a positive integer") 400 in
  let st' := State (table st1) (cache st1) [QueryGet "u1"] in
  run (handle e0 req) st1 = (o, st') /\
  (table st' = table st1 /\ cache st' = cache st1 /\
   trace st' = trace st1 ++ reads_before_validation req).
Proof.
  intros req o st'. split; [reflexivity|].
  apply (validation_leaves_stores_unchanged e0 req st1 o st').
  - reflexivity.
  - exists "Age must be a positive integer". split; [simpl; tauto | reflexivity].
Defined.

(** C5 as stated fails: an update with an invalid email reports its
    validation failure after the Record Store was read for the id. *)
Lemma update_validates_after_store_read :
  let req := PUT_user "u1" (obj [("email", JStr "not-an-email")]) in
  validation_failure (fst (run (handle e0 req) st1)) /\
  trace (snd (run (handle e0 req) st1)) = trace st1 ++ [QueryGet "u1"] /\
  snd (run (handle e0 req) st1) <> st1.
Proof.
  split; [|split].
  - exists "Invalid email". split; [simpl; tauto | reflexivity].
  - reflexivity.
  - intros H. apply (f_equal trace) in H. discriminate H.
Qed.

(** C9, as the code has it: an entity accepted by a create has a name that
    the request supplied and that is not null, stored as the text bound for
    it; an update that supplies a name stores the text bound for it, null
    being refused, and one that does not keeps the stored name.  Nothing
    requires that text to be non-empty. *)
Theorem accepted_name_is_text (e : env) (uid : string) (data : json)
    (st : state) (body : json) (st' : state) :
  (run (create_user e data) st = (Response body 201, st') ->
   exists v r,
     py_getitem data "name" = Ok v /\ v <> JNull /\
     table st' !! uuid4 e = Some r /\ bind_text e v = Text (col_name r)) /\
  (run (update_user e uid data) st = (Response body 200, st') ->
   exists r r',
     table st !! uid = Some r /\ table st' !! uid = Some r' /\
     match py_in "name" data with
     | Ok true =>
         exists v, py_getitem data "name" = Ok v /\ v <> JNull /\
                   bind_text e v = Text (col_name r')
     | _ => col_name r' = col_name r
     end).
Proof.
  split; intros H.
  - apply create_user_ok in H as (r & v & _ & Ht & Hn & Hb & _).
    exists v, r. split_and!; try done.
    + by intros ->.
    + rewrite Ht. apply lookup_insert_eq.
  - apply update_user_ok in H as (r & r' & v & Hl & Ht & Hb & Hn & _).
    exists r, r'. split_and!; try done.
    + rewrite Ht. apply lookup_insert_eq.
    + destruct (py_in "name" data) as [[]|].
      * exists v. split_and!; try done. by intros ->.
      * subst v. simpl in Hb. congruence.
      * subst v. simpl in Hb. congruence.
Qed.

Lemma accepted_name_is_text_witness :
  let r := Row "Carol" "carol@x\.org" 27 in
  let body := User.to_dict (User.load "u2" r) in
  let st' := State (<["u2" := r]> (table st1))
                   (<["user:u2" := Entry (json_dumps body) 1300]> (cache st1))
                   [SessionAdd "u2"; SessionCommit; RedisSetex "user:u2" 300] in
  run (create_user e0 carol_body) st1 = (Response body 201, st') /\
  exists v r,
    py_getitem carol_body "name" = Ok v /\ v <> JNull /\
    table st' !! "u2" = Some r /\ bind_text e0 v = Text (col_name r).
Proof.
  intros r body st'. split; [reflexivity|].
  apply (proj1 (accepted_name_is_text e0 "u1" carol_body st1 body st')).
  reflexivity.
Defined.

(** C9 as stated fails: a create whose name is the empty string is
    accepted, and the row stored has an empty name. *)
Lemma create_accepts_empty_name :
  let data := obj [("name", JStr ""); ("email", JStr "carol@x\.org"); ("age", JInt 27)] in
  let r := Row "" "carol@x\.org" 27 in
  fst (run (create_user e0 data) st1) = Response (User.to_dict (User.load "u2" r)) 201 /\
  table (snd (run (create_user e0 data) st1)) !! "u2" = Some r /\
  col_name r = "".
Proof. split_and!; reflexivity. Qed.

(** *** The cache-aside discipline *)

(** C2: [get_user] first probes the cache.  On a hit (an entry present and
    not expired) it returns the cached value and makes no call on the
    Record Store; on a miss with no row for the id it answers 404 "User not
    found" and leaves the cache as it was; on a miss with a row it returns
    the entity and sets the cache entry of the id to it, to expire
    [CACHE_TIMEOUT] = 300 seconds from now. *)
Theorem get_user_cache_aside (e : env) (user_id : string) (st : state) :
  let key := user_key user_id in
  let (o, st') := run (get_user e user_id) st in
  match live e (cache st) key with
  | Some cached =>
      o = Response (json_loads cached) 200 /\
      table st' = table st /\ cache st' = cache st /\
      trace st' = trace st ++ [RedisGet key]
  | None =>
      match table st !! user_id with
      | None =>
          o = Response (error "User not found") 404 /\
          table st' = table st /\ cache st' = cache st /\
          trace st' = trace st ++ [RedisGet key; QueryGet user_id]
      | Some r =>
          let user_data := User.to_dict (User.load user_id r) in
          o = Response user_data 200 /\
          table st' = table st /\
          cache st' = <[key := Entry (json_dumps user_data) (now e + 300)]> (cache st) /\
          trace st' = trace st ++ [RedisGet key; QueryGet user_id; RedisSetex key 300]
      end
  end.
Proof.
  intros key. rewrite run_get_user. fold key.
  destruct (live e (cache st) key); [done|].
  destruct (table st !! user_id); done.
Qed.



(** C4: a successful create stores the entity of the request under the
    uuid drawn, which no row had: the row holds the text of the name the
    body carries, the email of the body and the integer of its age.  The
    response is that row with its id, the cache entry of the id is set to
    it, to expire 300 seconds from now, and a read of the id that follows
    returns it.  A create that does not succeed leaves the table and the
    cache as they were and makes no call on the cache. *)
Theorem create_write_through (e : env) (data : json) (st : state) (o : outcome) (st' : state) :
  run (create_user e data) st = (o, st') ->
  (forall body, o = Response body 201 ->
     table st !! uuid4 e = None /\
     (exists r v a,
        py_getitem data "name" = Ok v /\ bind_text e v = Text (col_name r) /\
        py_getitem data "email" = Ok (JStr (col_email r)) /\
        py_getitem data "age" = Ok a /\ as_int a = Some (col_age r) /\
        table st' = <[uuid4 e := r]> (table st) /\
        body = obj [("id", JStr (uuid4 e)); ("name", JStr (col_name r));
                    ("email", JStr (col_email r)); ("age", JInt (col_age r))]) /\
     cache st' = <[user_key (uuid4 e) := Entry (json_dumps body) (now e + 300)]> (cache st) /\
     forall e', fst (run (get_user e' (uuid4 e)) st') = Response body 200) /\
  ((forall body, o <> Response body 201) ->
     table st' = table st /\ cache st' = cache st /\
     exists evs, trace st' = trace st ++ evs /\ forallb is_store_event evs = true).
Proof.
  intros H. split; [|by eapply create_user_failed].
  intros body ->.
  apply create_user_ok in H
    as (r & v & Hnew & Ht & Hn & Hb & He & _ & (a & Ha & Hi) & _ & -> & Hc).
  split_and!; [done|by exists r, v, a|done|].
  intros e'. eapply get_user_after_write.
  - rewrite Ht. apply lookup_insert_eq.
  - right. rewrite Hc. apply lookup_insert_eq.
Qed.

Lemma create_write_through_witness :
  let body := obj [("id", JStr "u2"); ("name", JStr "Carol");
                   ("email", JStr "carol@x\.org"); ("age", JInt 27)] in
  let st' := State (<["u2" := Row "Carol" "carol@x\.org" 27]> (table st1))
                   (<["user:u2" := Entry (json_dumps body) 1300]> (cache st1))
                   [SessionAdd "u2"; SessionCommit; RedisSetex "user:u2" 300] in
  run (create_user e0 carol_body) st1 = (Response body 201, st') /\
  table st' !! "u2" = Some (Row "Carol" "carol@x\.org" 27) /\
  forall e', fst (run (get_user e' "u2") st') = Response body 200.
Proof.
  intros body st'.
  assert (Hrun : run (create_user e0 carol_body) st1 = (Response body 201, st'))
    by reflexivity.
  split; [exact Hrun|]. split; [reflexivity|].
  destruct (create_write_through e0 carol_body st1 _ _ Hrun) as [H _].
  destruct (H body eq_refl) as (_ & _ & _ & Hget). exact Hget.
Defined.

(** C8: deleting an id that has a row removes the row, deletes the cache
    entry of the id whether or not there is one (the cache is unchanged
    when there is none) and answers 200; deleting it again then answers
    404 "User not found", as does deleting any id that has no row; when
    the commit fails the answer is 500 and the table and the cache are as
    they were. *)
Theorem delete_user_twice (e e' : env) (user_id : string) (st : state) :
  let (o, st') := run (delete_user e user_id) st in
  match table st !! user_id with
  | None =>
      o = Response (error "User not found") 404 /\
      table st' = table st /\ cache st' = cache st
  | Some _ =>
      if storage_fault e then
        o = Response (error "Database error") 500 /\
        table st' = table st /\ cache st' = cache st
      else
        o = Response (message "User deleted successfully") 200 /\
        table st' = delete user_id (table st) /\
        cache st' = delete (user_key user_id) (cache st) /\
        match cache st !! user_key user_id with
        | None => cache st' = cache st
        | Some _ => cache st' !! user_key user_id = None
        end /\
        fst (run (delete_user e' user_id) st') = Response (error "User not found") 404
  end.
Proof.
  rewrite run_delete_user.
  destruct (table st !! user_id) eqn:Hl; [|done].
  destruct (storage_fault e); [done|].
  split_and!; try done.
  - simpl. destruct (cache st !! user_key user_id) eqn:Hc.
    + apply lookup_delete_eq.
    + by apply delete_id.
  - rewrite run_delete_user. simpl. by rewrite lookup_delete_eq.
Qed.

(** *** Storage failures *)

(** C6: the answer "Email already exists" is given to every constraint
    violation of a commit, not to a duplicate email only.  In a table
    where no row has Carol's email, a create with that email and a null
    name, which the [nullable=False] column refuses, is answered 400
    "Email already exists"; so is an update of "u1" whose body is
    [{"name": null}] and carries no email at all.  These storage failures
    get the answer of a create with Ann's email, which is a duplicate, and
    not the 500 "Database error" of a commit that fails for another reason.
    In each case the session is rolled back and the table and the cache
    are as they were. *)
Theorem integrity_error_answered_as_email_conflict :
  let conflict := Response (error "Email already exists") 400 in
  let failure := Response (error "Database error") 500 in
  let null_name := obj [("name", JNull); ("email", JStr "carol@x\.org"); ("age", JInt 27)] in
  let e_fault := Env "u2" 1000 true (fun _ => None) in
  ~ email_in_use (table st1) "carol@x\.org" /\
  run (create_user e0 null_name) st1 =
    (conflict,
     State (table st1) (cache st1) [SessionAdd "u2"; SessionCommit; SessionRollback]) /\
  run (update_user e0 "u1" (obj [("name", JNull)])) st1 =
    (conflict,
     State (table st1) (cache st1) [QueryGet "u1"; SessionCommit; SessionRollback]) /\
  email_in_use (table st1) "ann@x\.org" /\
  run (create_user e0 bob_body) st1 =
    (conflict,
     State (table st1) (cache st1) [SessionAdd "u2"; SessionCommit; SessionRollback]) /\
  run (create_user e_fault carol_body) st1 =
    (failure,
     State (table st1) (cache st1) [SessionAdd "u2"; SessionCommit; SessionRollback]) /\
  conflict <> failure.
Proof.
  intros conflict failure null_name e_fault.
  split_and!; try reflexivity; try discriminate.
  - intros (k & r & Hl & He). unfold st1 in Hl. simpl in Hl.
    apply lookup_singleton_Some in Hl as [_ <-]. discriminate He.
  - exists "u1", ann. split; reflexivity.
Qed.

(** C10: an update with a non-empty body looks the id up before it checks
    the fields, so that an id with no row is answered 404 "User not found"
    whatever the body holds, an invalid email or age included; a 400 of
    such an update therefore comes from an id that has a row. *)
Theorem update_checks_existence_first (e : env) (user_id : string) (data : json) (st : state) :
  truthy data = true ->
  (table st !! user_id = None ->
   run (update_user e user_id data) st =
     (Response (error "User not found") 404,
      State (table st) (cache st) (trace st ++ [QueryGet user_id]))) /\
  (forall body st', run (update_user e user_id data) st = (Response body 400, st') ->
   is_Some (table st !! user_id)).
Proof.
  intros Ht. split.
  - by apply update_nonexistent.
  - intros body st' H.
    apply update_user_inv in H as [(? & _)|[(_ & _ & ? & _)|[(_ & ? & _)|(_ & r & u & -> & _)]]];
      [congruence|done|done|done].
Qed.

Lemma update_checks_existence_first_witness :
  let data := obj [("email", JStr "not-an-email"); ("age", JInt (-5))] in
  truthy data = true /\ table st1 !! "nobody" = None /\
  run (update_user e0 "nobody" data) st1 =
    (Response (error "User not found") 404,
     State (table st1) (cache st1) (trace st1 ++ [QueryGet "nobody"])).
Proof.
  intros data. split; [reflexivity|]. split; [reflexivity|].
  apply (update_checks_existence_first e0 "nobody" data st1); reflexivity.
Defined.

(** ** Further properties of the handlers *)

Lemma lang_chars_inv cs s : lang (Chars cs) s -> exists c, s = String c "" /\ in_cset cs c = true.
Proof. inversion 1; subst; eauto. Qed.

Lemma lang_dot_inv s : lang Dot s -> exists c, s = String c "" /\ c <> newline.
Proof. inversion 1; subst; eauto. Qed.

Lemma lang_lit c s : lang (Lit c) s <-> s = String c "".
Proof.
  unfold Lit. split.
  - intros (a & -> & Hin)%lang_chars_inv. unfold in_cset in Hin. simpl in Hin.
    rewrite orb_false_r in Hin. by apply in_range_single in Hin as ->.
  - intros ->. constructor. unfold in_cset, in_range. simpl.
    by rewrite N.leb_refl.
Qed.

Lemma lang_star_chars cs s : lang (Star (Chars cs)) s <-> all_in cs s = true.
Proof.
  split.
  - intros H. remember (Star (Chars cs)) as r eqn:Hr.
    induction H as [| | | | | | |r0 s1 s2 H1 _ H2 IH2]; try done.
    injection Hr as ->. apply lang_chars_inv in H1 as (c & -> & Hin).
    rewrite append_cons. simpl. rewrite Hin. by apply IH2.
  - induction s as [|c s IH]; simpl; intros H; [constructor|].
    apply andb_prop in H as [Hc Hs].
    apply (lang_star_cons _ (String c "") s); [by constructor|by apply IH].
Qed.

Lemma lang_plus_chars cs s :
  lang (Plus (Chars cs)) s <-> s <> "" /\ all_in cs s = true.
Proof.
  unfold Plus. split.
  - intros (s1 & s2 & -> & (c & -> & Hin)%lang_chars_inv & H2%lang_star_chars)%lang_seq_inv.
    rewrite append_cons. change ("" +:+ s2) with s2. simpl. by rewrite Hin, H2.
  - destruct s as [|c s]; intros [Hne H]; [done|]. simpl in H.
    apply andb_prop in H as [Hc Hs].
    apply (lang_seq _ _ (String c "") s); [by constructor|by apply lang_star_chars].
Qed.

Lemma lang_email_pattern s : lang email_pattern s <-> address s.
Proof.
  unfold email_pattern, address. split.
  - intros (l & s1 & -> & [Hl1 Hl2]%lang_plus_chars & H)%lang_seq_inv.
    apply lang_seq_inv in H as (a & s2 & -> & ->%lang_lit & H).
    apply lang_seq_inv in H as (h & s3 & -> & [Hh1 Hh2]%lang_plus_chars & H).
    apply lang_seq_inv in H as (b & s4 & -> & ->%lang_lit & H).
    apply lang_seq_inv in H as (d0 & x & -> & (d & -> & Hd)%lang_dot_inv & [Hx1 Hx2]%lang_plus_chars).
    exists l, h, d, x. done.
  - intros (l & h & d & x & -> & Hl1 & Hl2 & Hh1 & Hh2 & Hd & Hx1 & Hx2).
    apply lang_seq; [by apply lang_plus_chars|].
    apply (lang_seq _ _ (String "@" "")); [by apply lang_lit|].
    apply lang_seq; [by apply lang_plus_chars|].
    apply (lang_seq _ _ (String "\" "")); [by apply lang_lit|].
    apply (lang_seq _ _ (String d "")); [by constructor|by apply lang_plus_chars].
Qed.

Lemma chomp_spec s s' : chomp s = Some s' <-> s = s' +:+ String newline "".
Proof.
  revert s'. induction s as [|a s IH]; intros s'.
  - split; [done|]. intros H. destruct s'; discriminate H.
  - destruct s as [|b s].
    + cbn [chomp]. destruct (Ascii.eqb a newline) eqn:E.
      * apply Ascii.eqb_eq in E as ->. split; [by intros [= <-]|].
        intros H. destruct s' as [|c s']; [done|]. exfalso.
        rewrite append_cons in H. injection H as _ H. destruct s'; discriminate H.
      * apply Ascii.eqb_neq in E. split; [done|].
        intros H. destruct s' as [|c s'].
        -- change ("" +:+ String newline "") with (String newline "") in H. congruence.
        -- rewrite append_cons in H. injection H as _ H. destruct s'; discriminate H.
    + change (chomp (String a (String b s))) with (String a <$> chomp (String b s)).
      split.
      * destruct (chomp (String b s)) as [t|] eqn:Ht; [|done].
        intros [= <-]. rewrite append_cons. f_equal. by apply IH.
      * intros H. destruct s' as [|c s']; [discriminate H|].
        rewrite append_cons in H. injection H as -> H.
        apply IH in H. by rewrite H.
Qed.

(** X1: among the strings of characters with code points below 256,
    [is_valid_email] accepts exactly the addresses of its pattern, and those
    followed by one newline. *)
Theorem is_valid_email_iff (s : string) :
  is_valid_email s = true <->
  address s \/ exists s', s = s' +:+ String newline "" /\ address s'.
Proof.
  unfold is_valid_email, py_match. rewrite orb_true_iff, accepts_lang, lang_email_pattern.
  split; (intros [H|H]; [by left|right]).
  - destruct (chomp s) as [s'|] eqn:Hc; [|done].
    apply chomp_spec in Hc. apply accepts_lang, lang_email_pattern in H. eauto.
  - destruct H as (s' & Hs & Ha). apply chomp_spec in Hs. rewrite Hs.
    by apply accepts_lang, lang_email_pattern.
Qed.

Lemma email_taken_false tbl uid email :
  email_taken tbl uid email = false -> ~ email_of_other tbl uid email.
Proof.
  intros H Ho. apply email_taken_spec in Ho. congruence.
Qed.

Lemma handle_effect e req st o st' :
  run (handle e req) st = (o, st') -> effect e st req o st'.
Proof.
  intros H. destruct req as [data|uid|uid data|uid|]; simpl in H.
  - apply create_user_inv in H as [[Hrej ->] | (user & Hacc & H)].
    + apply eff_none; try done.
      * intros body ->. by destruct Hrej as [?|[?|[?|[? ?]]]].
      * intros body ->. by destruct Hrej as [?|[?|[?|[? ?]]]].
    + destruct Hacc as (_ & _ & _ & _ & _ & _ & _ & _ & Hid).
      unfold create_commit in H.
      destruct (flush e (Add user) (table st)) as [[u| |] tbl] eqn:Hf; simplify_eq.
      * apply flush_committed in Hf as (_ & Hpk & Het & n & Hb & -> & ->).
        rewrite Hid in *. simpl.
        apply (eff_insert e st data (Row n (User.email user) (User.age user))); try done.
        simpl. intros (k & r & Hl & He).
        apply email_taken_false in Het. apply Het. exists k, r. split_and!; try done.
        intros ->. congruence.
      * apply flush_not_committed in Hf as ->; [|done]. by apply eff_none.
      * apply flush_not_committed in Hf as ->; [|done]. by apply eff_none.
  - rewrite run_get_user in H. cbv zeta in H.
    destruct (live e (cache st) (user_key uid)); [|destruct (table st !! uid) eqn:Hl]; simplify_eq.
    + apply eff_none; try done. intros ? _. eauto.
    + by apply eff_fill.
    + by apply eff_none.
  - apply update_user_inv in H
      as [(_ & -> & ->)|[(_ & _ & -> & ->)|[(_ & _ & Hrej & ->)|(_ & r & u & Hl & Hp & H)]]].
    + by apply eff_none.
    + by apply eff_none.
    + apply eff_none; try done.
      * intros body ->. by destruct Hrej as [?|[?|[? ?]]].
      * intros body ->. by destruct Hrej as [?|[?|[? ?]]].
    + destruct Hp as (Hid & _). simpl in Hid. unfold update_commit in H.
      destruct (flush e (Dirty u) (table st)) as [[u'| |] tbl] eqn:Hf; simplify_eq.
      * apply flush_committed in Hf as (_ & Het & n & Hb & -> & ->).
        simpl. eapply eff_update; try done. simpl. by apply email_taken_false.
      * apply flush_not_committed in Hf as ->; [|done]. by apply eff_none.
      * apply flush_not_committed in Hf as ->; [|done]. by apply eff_none.
  - rewrite run_delete_user in H.
    destruct (table st !! uid) eqn:Hl; [destruct (storage_fault e)|]; simplify_eq.
    + by apply eff_none.
    + by eapply eff_delete.
    + by apply eff_none.
  - unfold run, get_all_users, query_all, mbind, M_bind, mret, M_ret in H. simplify_eq.
    apply eff_none; try done. intros ? _. exists "". by right.
Qed.

Lemma user_key_inj a b : user_key a = user_key b -> a = b.
Proof. unfold user_key. intros H. by repeat injection H as H. Qed.

(** The two states of the examples satisfy the invariants. *)
Lemma coherent_st2 : coherent st2.
Proof.
  intros k en H. unfold st2 in H. cbn [cache] in H.
  apply lookup_singleton_Some in H as [<- <-].
  exists "u1", ann. split_and!; reflexivity.
Defined.

Lemma unique_emails_st1 : unique_emails (table st1).
Proof.
  intros k1 k2 r1 r2 H1 H2 _. unfold st1 in H1, H2. cbn [table] in H1, H2.
  apply lookup_singleton_Some in H1 as [<- _].
  by apply lookup_singleton_Some in H2 as [<- _].
Defined.

(** X2: every request that returns a response keeps the cache coherent with
    the table: each entry is the entry of an id that has a row and holds
    that row. *)
Theorem coherent_preserved e req st body status st' :
  run (handle e req) st = (Response body status, st') -> coherent st -> coherent st'.
Proof.
  intros H Hc. apply handle_effect in H. unfold coherent in *.
  remember (Response body status) as o eqn:Ho. clear Ho.
  destruct H as [req o st' Ht Hca _ _|uid r st' Hl Ht Hca|data r st' Hn _ Ht Hca
                |uid data r r' st' Hl _ Ht Hca|uid r st' Hl Ht Hca];
    rewrite Ht, Hca; intros k en Hk.
  - by apply Hc.
  - destruct (decide (k = user_key uid)) as [->|Hne].
    + rewrite lookup_insert_eq in Hk. simplify_eq. eauto.
    + rewrite lookup_insert_ne in Hk by done. by apply Hc.
  - destruct (decide (k = user_key (uuid4 e))) as [->|Hne].
    + rewrite lookup_insert_eq in Hk. simplify_eq.
      exists (uuid4 e), r. by rewrite lookup_insert_eq.
    + rewrite lookup_insert_ne in Hk by done.
      apply Hc in Hk as (uid & r0 & -> & Hr0 & Hv). exists uid, r0.
      rewrite lookup_insert_ne by congruence. done.
  - destruct (decide (k = user_key uid)) as [->|Hne].
    + by rewrite lookup_delete_eq in Hk.
    + rewrite lookup_delete_ne in Hk by done.
      apply Hc in Hk as (uid0 & r0 & -> & Hr0 & Hv). exists uid0, r0.
      rewrite lookup_insert_ne by congruence. done.
  - destruct (decide (k = user_key uid)) as [->|Hne].
    + by rewrite lookup_delete_eq in Hk.
    + rewrite lookup_delete_ne in Hk by done.
      apply Hc in Hk as (uid0 & r0 & -> & Hr0 & Hv). exists uid0, r0.
      rewrite lookup_delete_ne by congruence. done.
Qed.

Lemma coherent_preserved_witness :
  let req := PUT_user "u1" (obj [("age", JInt 31)]) in
  let body := obj [("id", JStr "u1"); ("name", JStr "Ann");
                   ("email", JStr "ann@x\.org"); ("age", JInt 31)] in
  let st' := State (<["u1" := Row "Ann" "ann@x\.org" 31]> (table st2))
                   (delete "user:u1" (cache st2))
                   [QueryGet "u1"; SessionCommit; RedisDelete "user:u1"] in
  run (handle e0 req) st2 = (Response body 200, st') /\ coherent st2 /\ coherent st'.
Proof.
  intros req body st'.
  assert (Hrun : run (handle e0 req) st2 = (Response body 200, st')) by reflexivity.
  split; [exact Hrun|]. split; [exact coherent_st2|].
  exact (coherent_preserved e0 req st2 body 200 st' Hrun coherent_st2).
Defined.

(** X3: on a coherent cache a read returns the row the table has for the id,
    or 404 when it has none, be it a hit or a miss. *)
Theorem coherent_read e uid st :
  coherent st ->
  fst (run (get_user e uid) st) =
  match table st !! uid with
  | Some r => Response (User.to_dict (User.load uid r)) 200
  | None => Response (error "User not found") 404
  end.
Proof.
  intros Hc. rewrite run_get_user. unfold live.
  destruct (cache st !! user_key uid) as [en|] eqn:Hk.
  - apply Hc in Hk as (uid0 & r & Hu & Hr & Hv). apply user_key_inj in Hu as <-.
    rewrite Hr. destruct (now e <? expires_at en)%Z; [|done].
    simpl. by rewrite Hv.
  - by destruct (table st !! uid).
Qed.

Lemma coherent_read_witness :
  coherent st2 /\
  fst (run (get_user e0 "u1") st2) = Response (User.to_dict (User.load "u1" ann)) 200.
Proof.
  split; [exact coherent_st2|].
  apply (coherent_read e0 "u1" st2 coherent_st2).
Defined.

(** X4: no request makes two rows share an email. *)
Theorem unique_emails_preserved e req st o st' :
  run (handle e req) st = (o, st') -> unique_emails (table st) -> unique_emails (table st').
Proof.
  intros H Hu. apply handle_effect in H. unfold unique_emails in *.
  destruct H as [req o st' Ht Hca _ _|uid r st' Hl Ht Hca|data r st' Hn Hfree Ht Hca
                |uid data r r' st' Hl Hfree Ht Hca|uid r st' Hl Ht Hca];
    rewrite Ht; try done; intros k1 k2 r1 r2 H1 H2 He.
  - destruct (decide (k1 = uuid4 e)) as [->|N1], (decide (k2 = uuid4 e)) as [->|N2];
      try done.
    + rewrite lookup_insert_eq in H1. rewrite lookup_insert_ne in H2 by done.
      simplify_eq. destruct Hfree. exists k2, r2. by split.
    + rewrite lookup_insert_eq in H2. rewrite lookup_insert_ne in H1 by done.
      simplify_eq. destruct Hfree. exists k1, r1. by split.
    + rewrite lookup_insert_ne in H1, H2 by done. eauto.
  - destruct (decide (k1 = uid)) as [->|N1], (decide (k2 = uid)) as [->|N2];
      try done.
    + rewrite lookup_insert_eq in H1. rewrite lookup_insert_ne in H2 by done.
      simplify_eq. destruct Hfree. exists k2, r2. by split_and!.
    + rewrite lookup_insert_eq in H2. rewrite lookup_insert_ne in H1 by done.
      simplify_eq. destruct Hfree. exists k1, r1. by split_and!.
    + rewrite lookup_insert_ne in H1, H2 by done. eauto.
  - apply lookup_delete_Some in H1 as [_ H1]. apply lookup_delete_Some in H2 as [_ H2]. eauto.
Qed.

Lemma unique_emails_preserved_witness :
  unique_emails (table st1) /\
  unique_emails (table (snd (run (handle e0 (POST_users carol_body)) st1))).
Proof.
  split; [exact unique_emails_st1|].
  apply (unique_emails_preserved e0 (POST_users carol_body) st1
           (fst (run (handle e0 (POST_users carol_body)) st1))).
  - reflexivity.
  - exact unique_emails_st1.
Defined.

(** X5: a request that returns a response other than 200 and 201 leaves the
    table and the cache as they were. *)
Theorem failure_changes_nothing e req st body status st' :
  run (handle e req) st = (Response body status, st') ->
  ~ succeeded (Response body status) ->
  table st' = table st /\ cache st' = cache st.
Proof.
  intros H Hs. apply handle_effect in H.
  remember (Response body status) as o eqn:Ho. clear Ho.
  destruct H; try done; destruct Hs; eexists; eauto.
Qed.

Lemma failure_changes_nothing_witness :
  let req := POST_users bob_body in
  let st' := State (table st2) (cache st2) [SessionAdd "u2"; SessionCommit; SessionRollback] in
  run (handle e0 req) st2 = (Response (error "Email already exists") 400, st') /\
  ~ succeeded (Response (error "Email already exists") 400) /\
  table st' = table st2 /\ cache st' = cache st2.
Proof.
  intros req st'.
  assert (Hrun : run (handle e0 req) st2 = (Response (error "Email already exists") 400, st'))
    by reflexivity.
  assert (Hs : ~ succeeded (Response (error "Email already exists") 400)).
  { intros (body & [H|H]); discriminate H. }
  split; [exact Hrun|]. split; [exact Hs|].
  exact (failure_changes_nothing e0 req st2 _ 400 st' Hrun Hs).
Defined.

(** X6: a request leaves the row and the cache entry of every other id as
    they were. *)
Theorem request_touches_its_id e req st o st' uid :
  run (handle e req) st = (o, st') ->
  target e req <> Some uid ->
  table st' !! uid = table st !! uid /\
  cache st' !! user_key uid = cache st !! user_key uid.
Proof.
  intros H Hne. apply handle_effect in H.
  destruct H as [req o st' Ht Hca _ _|uid0 r st' Hl Ht Hca|data r st' Hn _ Ht Hca
                |uid0 data r r' st' Hl _ Ht Hca|uid0 r st' Hl Ht Hca];
    rewrite Ht, Hca; try done; simpl in Hne.
  - split; [done|]. apply lookup_insert_ne. intros ?%user_key_inj. congruence.
  - split; apply lookup_insert_ne; [congruence|]. intros ?%user_key_inj. congruence.
  - split; [apply lookup_insert_ne; congruence|].
    apply lookup_delete_ne. intros ?%user_key_inj. congruence.
  - split; apply lookup_delete_ne; [congruence|]. intros ?%user_key_inj. congruence.
Qed.

Lemma request_touches_its_id_witness :
  let req := POST_users carol_body in
  target e0 req <> Some "u1" /\
  table (snd (run (handle e0 req) st2)) !! "u1" = table st2 !! "u1" /\
  cache (snd (run (handle e0 req) st2)) !! user_key "u1" = cache st2 !! user_key "u1".
Proof.
  intros req.
  assert (Hne : target e0 req <> Some "u1") by discriminate.
  split; [exact Hne|].
  apply (request_touches_its_id e0 req st2 (fst (run (handle e0 req) st2))).
  - reflexivity.
  - exact Hne.
Defined.

(** X7: a create leaves every committed row in place, also when the uuid it
    draws is the id of one. *)
Theorem create_never_overwrites e data st o st' uid r :
  run (create_user e data) st = (o, st') ->
  table st !! uid = Some r ->
  table st' !! uid = Some r.
Proof.
  intros H Hl. apply (handle_effect e (POST_users data)) in H.
  inversion H as [? ? ? Ht _ _ _| |? r0 ? Hn _ Ht _| |]; subst; rewrite Ht; [done|].
  rewrite lookup_insert_ne; [done|]. congruence.
Qed.

Lemma create_never_overwrites_witness :
  table st1 !! "u1" = Some ann /\
  table (snd (run (create_user e_collide carol_body) st1)) !! "u1" = Some ann.
Proof.
  split; [reflexivity|].
  apply (create_never_overwrites e_collide carol_body st1
           (fst (run (create_user e_collide carol_body) st1))).
  - reflexivity.
  - reflexivity.
Defined.

(** X8: only a create adds an id, the one it draws, and only a delete removes
    one, its own; the other requests keep the set of ids. *)
Theorem ids_after_request e req st o st' :
  run (handle e req) st = (o, st') ->
  match req with
  | POST_users _ =>
      dom (table st') = dom (table st) \/
      ((uuid4 e ∉ dom (table st)) /\ dom (table st') = {[uuid4 e]} ∪ dom (table st))
  | DELETE_user uid =>
      dom (table st') = dom (table st) \/
      ((uid ∈ dom (table st)) /\ dom (table st') = dom (table st) ∖ {[uid]})
  | _ => dom (table st') = dom (table st)
  end.
Proof.
  intros H. apply handle_effect in H.
  destruct H as [req o st' Ht Hca _ _|uid0 r st' Hl Ht Hca|data r st' Hn _ Ht Hca
                |uid0 data r r' st' Hl _ Ht Hca|uid0 r st' Hl Ht Hca]; rewrite Ht.
  - destruct req; auto.
  - done.
  - right. split; [by apply not_elem_of_dom|]. by rewrite dom_insert_L.
  - rewrite dom_insert_L. apply elem_of_dom_2 in Hl.
    apply subseteq_union_1_L. by apply singleton_subseteq_l.
  - right. split; [by apply elem_of_dom_2 in Hl|]. by rewrite dom_delete_L.
Qed.

Lemma ids_after_request_witness :
  dom (table (snd (run (handle e0 (PUT_user "nobody" carol_body)) st1))) = dom (table st1).
Proof.
  apply (ids_after_request e0 (PUT_user "nobody" carol_body) st1
           (fst (run (handle e0 (PUT_user "nobody" carol_body)) st1))).
  reflexivity.
Defined.

(** X9: the listing answers 200 with the dict of each row of the table, once
    each, after one query of the table and no call on the cache. *)
Theorem get_all_users_lists_table (st : state) :
  exists l,
    run get_all_users st =
      (Response (JArr l) 200, State (table st) (cache st) (trace st ++ [QueryAll])) /\
    length l = size (table st) /\
    forall v, In v l <-> exists uid r, table st !! uid = Some r /\ v = User.to_dict (User.load uid r).
Proof.
  eexists. split; [reflexivity|]. split.
  - by rewrite !length_map, length_map_to_list.
  - intros v. rewrite map_map, in_map_iff. split.
    + intros ([uid r] & <- & Hin). exists uid, r. split; [|done].
      apply elem_of_map_to_list. by apply list_elem_of_In.
    + intros (uid & r & Hl & ->). exists (uid, r). split; [done|].
      apply list_elem_of_In. by apply elem_of_map_to_list.
Qed.

(** X10: a read that follows a successful delete of the id answers 404. *)
Theorem deleted_user_not_found e e' uid st body :
  fst (run (delete_user e uid) st) = Response body 200 ->
  fst (run (get_user e' uid) (snd (run (delete_user e uid) st))) =
    Response (error "User not found") 404.
Proof.
  rewrite run_delete_user.
  destruct (table st !! uid) eqn:Hl; [destruct (storage_fault e)|]; simpl; try done.
  intros _. rewrite run_get_user. unfold live. simpl.
  by rewrite !lookup_delete_eq.
Qed.

Lemma deleted_user_not_found_witness :
  fst (run (delete_user e0 "u1") st2) = Response (message "User deleted successfully") 200 /\
  fst (run (get_user e0 "u1") (snd (run (delete_user e0 "u1") st2))) =
    Response (error "User not found") 404.
Proof.
  split; [reflexivity|].
  apply (deleted_user_not_found e0 e0 "u1" st2 (message "User deleted successfully")).
  reflexivity.
Defined.



(** X12: a create, update or delete that returns 200 or 201 has made one call
    on the cache, its last call, right after the commit; one that returns
    another response has made none. *)
Theorem write_calls_cache_after_commit e req st body status st' :
  is_write req = true ->
  run (handle e req) st = (Response body status, st') ->
  exists evs,
    trace st' = trace st ++ evs /\
    ((succeeded (Response body status) /\
      exists pre ev, evs = pre ++ [SessionCommit; ev] /\
                     forallb is_store_event pre = true /\ is_store_event ev = false) \/
     (~ succeeded (Response body status) /\ forallb is_store_event evs = true)).
Proof.
  assert (Hno : forall msg s, s <> 200 -> s <> 201 -> ~ succeeded (Response (error msg) s)).
  { intros msg s ? ? (b & [?|?]); congruence. }
  intros Hw H. destruct req as [data|uid|uid data|uid|]; try done; simpl in H.
  - apply create_user_inv in H as [[Hrej ->] | (user & _ & H)].
    + exists []. rewrite app_nil_r. split; [done|]. right. split; [|done].
      destruct Hrej as [->|[->|[->|[x ?]]]]; [auto..|done].
    + unfold create_commit in H.
      destruct (flush e (Add user) (table st)) as [[u| |] tbl]; simplify_eq;
        eexists; (split; [reflexivity|]).
      * left. split; [eexists; eauto|]. by exists [SessionAdd (User.id user)], (RedisSetex (user_key (User.id u)) CACHE_TIMEOUT).
      * right. split; [|done]. auto.
      * right. split; [|done]. auto.
  - apply update_user_inv in H
      as [(_ & Ho & ->)|[(_ & _ & Ho & ->)|[(_ & _ & Hrej & ->)|(_ & r & u & _ & _ & H)]]].
    + exists []. rewrite app_nil_r. split; [done|]. right. split; [|done].
      rewrite Ho. auto.
    + eexists. split; [reflexivity|]. right. split; [|done]. rewrite Ho. auto.
    + eexists. split; [reflexivity|]. right. split; [|done].
      destruct Hrej as [->|[->|[x ?]]]; [auto..|done].
    + unfold update_commit in H.
      destruct (flush e (Dirty u) (table st)) as [[u'| |] tbl]; simplify_eq;
        eexists; (split; [reflexivity|]).
      * left. split; [eexists; eauto|]. by exists [QueryGet (User.id u)], (RedisDelete (user_key (User.id u'))).
      * right. split; [|done]. auto.
      * right. split; [|done]. auto.
  - rewrite run_delete_user in H.
    destruct (table st !! uid) eqn:Hl; [destruct (storage_fault e)|]; simplify_eq;
      eexists; (split; [reflexivity|]).
    + right. split; [|done]. auto.
    + left. split; [eexists; eauto|].
      by exists [QueryGet uid; SessionDelete uid], (RedisDelete (user_key uid)).
    + right. split; [|done]. auto.
Qed.

Lemma write_calls_cache_after_commit_witness :
  let req := DELETE_user "u1" in
  let body := message "User deleted successfully" in
  let st' := State (delete "u1" (table st2)) (delete "user:u1" (cache st2))
                   [QueryGet "u1"; SessionDelete "u1"; SessionCommit; RedisDelete "user:u1"] in
  run (handle e0 req) st2 = (Response body 200, st') /\
  exists evs,
    trace st' = trace st2 ++ evs /\
    ((succeeded (Response body 200) /\
      exists pre ev, evs = pre ++ [SessionCommit; ev] /\
                     forallb is_store_event pre = true /\ is_store_event ev = false) \/
     (~ succeeded (Response body 200) /\ forallb is_store_event evs = true)).
Proof.
  intros req body st'.
  assert (Hrun : run (handle e0 req) st2 = (Response body 200, st')) by reflexivity.
  split; [exact Hrun|].
  exact (write_calls_cache_after_commit e0 req st2 body 200 st' eq_refl Hrun).
Defined.

(** X13: the status of every response a handler returns for a body that
    [request.get_json()] gave it is one of the statuses of its route. *)
Theorem status_of_route e req st body status st' :
  run (handle e req) st = (Response body status, st') -> In status (statuses req).
Proof.
  intros H. destruct req as [data|uid|uid data|uid|]; simpl in *.
  - apply create_user_inv in H as [[Hrej ->] | (user & _ & H)].
    + destruct Hrej as [?|[?|[?|[x ?]]]]; simplify_eq; simpl; auto 8.
    + unfold create_commit in H.
      destruct (flush e (Add user) (table st)) as [[u| |] tbl]; simplify_eq; simpl; auto 8.
  - rewrite run_get_user in H. cbv zeta in H.
    destruct (live e (cache st) (user_key uid)); [|destruct (table st !! uid)];
      simplify_eq; simpl; auto 8.
  - apply update_user_inv in H
      as [(_ & ? & _)|[(_ & _ & ? & _)|[(_ & _ & Hrej & _)|(_ & r & u & _ & _ & H)]]].
    + simplify_eq; simpl; auto 8.
    + simplify_eq; simpl; auto 8.
    + destruct Hrej as [?|[?|[x ?]]]; simplify_eq; simpl; auto 8.
    + unfold update_commit in H.
      destruct (flush e (Dirty u) (table st)) as [[u'| |] tbl]; simplify_eq; simpl; auto 8.
  - rewrite run_delete_user in H.
    destruct (table st !! uid); [destruct (storage_fault e)|]; simplify_eq; simpl; auto 8.
  - unfold run, get_all_users, query_all, mbind, M_bind, mret, M_ret in H.
    simplify_eq. simpl. auto.
Qed.

Lemma status_of_route_witness : In 404 (statuses (GET_user "nobody")).
Proof.
  apply (status_of_route e0 (GET_user "nobody") st1 (error "User not found") 404
           (snd (run (handle e0 (GET_user "nobody")) st1))).
  reflexivity.
Defined.

Lemma assoc_none_all_in (items : list (string * json)) :
  assoc "name" items = None \/ assoc "email" items = None \/ assoc "age" items = None ->
  py_all_in ["name"; "email"; "age"] (JObj items) = Ok false.
Proof.
  simpl. destruct (assoc "name" items); [|done].
  destruct (assoc "email" items); [|done].
  destruct (assoc "age" items); [|done]. by intros [?|[?|?]].
Qed.

(** X14: a create whose dict lacks one of the three keys answers 400 "Missing
    fields" and calls nothing. *)
Theorem create_missing_key e items st :
  assoc "name" items = None \/ assoc "email" items = None \/ assoc "age" items = None ->
  run (create_user e (JObj items)) st = (Response (error "Missing fields") 400, st).
Proof.
  intros H. apply assoc_none_all_in in H.
  unfold run, create_user, mbind, M_bind, mret, M_ret, return_, jsonify.
  destruct (truthy (JObj items)); [|done]. by rewrite H.
Qed.

Lemma create_missing_key_witness :
  run (create_user e0 (JObj [("name", JStr "Dan"); ("email", JStr "dan@x\.org")])) st1 =
    (Response (error "Missing fields") 400, st1).
Proof.
  apply (create_missing_key e0 [("name", JStr "Dan"); ("email", JStr "dan@x\.org")] st1).
  right. right. reflexivity.
Defined.

(** X15: a create whose body is not a dict answers 400 "Missing fields" or
    raises [TypeError], and calls nothing. *)
Theorem create_non_dict e data st :
  (forall items, data <> JObj items) ->
  run (create_user e data) st = (Response (error "Missing fields") 400, st) \/
  run (create_user e data) st = (Uncaught TypeError, st).
Proof.
  intros Hd. destruct data; try (by edestruct Hd);
    unfold run, create_user, lift, raise, return_, mbind, M_bind, mret, M_ret, jsonify;
    cbn [truthy py_all_in py_in py_getitem];
    repeat case_match; simplify_eq; auto.
Qed.

Lemma create_non_dict_witness :
  run (create_user e0 (JInt 5)) st1 = (Response (error "Missing fields") 400, st1) \/
  run (create_user e0 (JInt 5)) st1 = (Uncaught TypeError, st1).
Proof.
  apply (create_non_dict e0 (JInt 5) st1). intros items H. discriminate H.
Defined.

(** X16: an email that is not a string makes create and update raise
    [TypeError], the stores unchanged. *)
Theorem non_string_email_raises e uid items v st :
  assoc "email" items = Some v ->
  (forall s, v <> JStr s) ->
  (is_Some (assoc "name" items) -> is_Some (assoc "age" items) ->
   run (create_user e (JObj items)) st = (Uncaught TypeError, st)) /\
  (is_Some (table st !! uid) ->
   run (update_user e uid (JObj items)) st =
     (Uncaught TypeError, State (table st) (cache st) (trace st ++ [QueryGet uid]))).
Proof.
  intros He Hv. split.
  - intros [n Hn] [a Ha].
    unfold run, create_user, lift, raise, return_, mbind, M_bind, mret, M_ret, jsonify.
    assert (truthy (JObj items) = true) as -> by (by destruct items).
    cbn [py_all_in py_in py_getitem]. rewrite Hn, He, Ha. simpl.
    destruct v; try done. by edestruct Hv.
  - intros [r Hr].
    assert (Ht : truthy (JObj items) = true) by (by destruct items).
    rewrite update_user_unfold, Ht. cbn [negb].
    unfold run. rewrite bind_eq.
    unfold query_get at 1. rewrite Hr. cbn [fmap option_fmap option_map]. cbv beta iota.
    rewrite bind_eq.
    assert (Hname : exists u, forall st0, patch_name (JObj items) (User.load uid r) st0 = (Val u, st0)).
    { unfold patch_name, lift, raise, mbind, M_bind, mret, M_ret. cbn [py_in py_getitem].
      destruct (assoc "name" items); eauto. }
    destruct Hname as [u ->]. cbv beta iota. rewrite bind_eq.
    assert (Hemail : forall st0, patch_email (JObj items) u st0 = (Raise TypeError, st0)).
    { intros st0.
      unfold patch_email, lift, raise, return_, mbind, M_bind, mret, M_ret.
      cbn [py_in py_getitem]. rewrite He. destruct v; try done. by edestruct Hv. }
    by rewrite Hemail.
Qed.

Lemma non_string_email_raises_witness :
  run (update_user e0 "u1" (JObj [("name", JStr "Z"); ("email", JInt 5)])) st1 =
    (Uncaught TypeError, State (table st1) (cache st1) (trace st1 ++ [QueryGet "u1"])).
Proof.
  apply (non_string_email_raises e0 "u1" [("name", JStr "Z"); ("email", JInt 5)] (JInt 5) st1).
  - reflexivity.
  - intros s H. discriminate H.
  - exists ann. reflexivity.
Defined.

(** A subscript that follows a successful [in] raises no [KeyError]. *)
Lemma guarded_getitem k data x :
  py_in k data = Ok true -> py_getitem data k = Throws x -> x = TypeError.
Proof.
  destruct data; simpl; try congruence.
  destruct (assoc k items); [done|]. by intros [= ?].
Qed.

Lemma py_all_in_true data :
  py_all_in ["name"; "email"; "age"] data = Ok true ->
  py_in "name" data = Ok true /\ py_in "email" data = Ok true /\ py_in "age" data = Ok true.
Proof.
  simpl. destruct (py_in "name" data) as [[]|]; try done.
  destruct (py_in "email" data) as [[]|]; try done.
  by destruct (py_in "age" data) as [[]|].
Qed.

Lemma py_in_throws k data x : py_in k data = Throws x -> x = TypeError.
Proof. destruct data; simpl; congruence. Qed.

Lemma py_all_in_throws data x :
  py_all_in ["name"; "email"; "age"] data = Throws x -> x = TypeError.
Proof.
  simpl. destruct (py_in "name" data) as [[]|] eqn:H1; try done.
  - destruct (py_in "email" data) as [[]|] eqn:H2; try done.
    + destruct (py_in "age" data) as [[]|] eqn:H3; try done.
      intros [= <-]. by apply py_in_throws in H3.
    + intros [= <-]. by apply py_in_throws in H2.
  - intros [= <-]. by apply py_in_throws in H1.
Qed.

Lemma block_raises data user st x st' :
  patch_name data user st = (Raise x, st') \/
  patch_email data user st = (Raise x, st') \/
  patch_age data user st = (Raise x, st') ->
  x = TypeError.
Proof.
  unfold patch_name, patch_email, patch_age, lift, raise, return_, mbind, M_bind, mret, M_ret.
  intros [H|[H|H]].
  - destruct (py_in "name" data) as [[]|] eqn:Hi; simplify_eq.
    + destruct (py_getitem data "name") eqn:Hg; simplify_eq. by eapply guarded_getitem.
    + by eapply py_in_throws.
  - destruct (py_in "email" data) as [[]|] eqn:Hi; simplify_eq.
    + destruct (py_getitem data "email") as [v|] eqn:Hg; simplify_eq.
      * destruct v; simplify_eq; try done. by destruct (negb (is_valid_email s)).
      * by eapply guarded_getitem.
    + by eapply py_in_throws.
  - destruct (py_in "age" data) as [[]|] eqn:Hi; simplify_eq.
    + destruct (py_getitem data "age") as [v|] eqn:Hg; simplify_eq.
      * destruct (as_int v) as [n|]; simplify_eq. by destruct (n <=? 0)%Z.
      * by eapply guarded_getitem.
    + by eapply py_in_throws.
Qed.

(** X17: no handler lets a [KeyError] escape: every subscript [data[k]]
    follows a successful [k in data], so that an exception raised by the
    handlers' own tests and subscripts is a [TypeError]. *)
Theorem handlers_raise_no_key_error e req st x st' :
  run (handle e req) st = (Uncaught x, st') -> x <> KeyError.
Proof.
  intros H. enough (x = TypeError) as -> by done.
  destruct req as [data|uid|uid data|uid|]; simpl in H.
  - unfold run, create_user, lift, raise, return_, mbind, M_bind, mret, M_ret, jsonify in H.
    destruct (truthy data); cbn [negb] in H; [|by simplify_eq].
    destruct (py_all_in ["name"; "email"; "age"] data) as [[]|] eqn:Ha; cbn [negb] in H;
      [|by simplify_eq|simplify_eq; by eapply py_all_in_throws].
    apply py_all_in_true in Ha as (Hn & He & Hg).
    destruct (py_getitem data "email") as [v|] eqn:Hge; cbn [negb] in H;
      [|simplify_eq; by apply (guarded_getitem "email" data)].
    destruct v; cbn [negb] in H; simplify_eq; try done.
    destruct (negb (is_valid_email s)); cbn [negb] in H; [by simplify_eq|].
    destruct (py_getitem data "age") as [v|] eqn:Hga; cbn [negb] in H;
      [|simplify_eq; by apply (guarded_getitem "age" data)].
    destruct (as_int v) as [n|]; cbn [negb] in H; [|by simplify_eq].
    destruct (n <=? 0)%Z; cbn [negb] in H; [by simplify_eq|].
    destruct (py_getitem data "name") as [w|] eqn:Hgn; cbn [negb] in H;
      [|simplify_eq; by apply (guarded_getitem "name" data)].
    unfold session_add, session_commit, session_rollback, redis_setex, log in H.
    simpl in H. destruct (flush e _ (table st)) as [[] ?]; simpl in H; by simplify_eq.
  - exfalso. rewrite run_get_user in H. cbv zeta in H.
    destruct (live e (cache st) (user_key uid)); [|destruct (table st !! uid)]; by simplify_eq.
  - rewrite update_user_unfold in H. unfold run in H.
    destruct (negb (truthy data)); [by simplify_eq|].
    rewrite bind_eq in H. unfold query_get at 1 in H. cbv beta iota in H.
    destruct (table st !! uid) as [r|]; cbn [fmap option_fmap option_map] in H;
      [|by simplify_eq].
    rewrite bind_eq in H.
    destruct (patch_name data (User.load uid r) _) as [[u1|[]|x1] s1] eqn:H1;
      cbv beta iota in H; [|by simplify_eq|simplify_eq; eapply block_raises; eauto].
    rewrite bind_eq in H.
    destruct (patch_email data u1 s1) as [[u2|[]|x2] s2] eqn:H2;
      cbv beta iota in H; [|by simplify_eq|simplify_eq; eapply block_raises; eauto].
    rewrite bind_eq in H.
    destruct (patch_age data u2 s2) as [[u3|[]|x3] s3] eqn:H3;
      cbv beta iota in H; [|by simplify_eq|simplify_eq; eapply block_raises; eauto].
    exfalso. pose proof (commit_update_run e u3 s3) as Hc. unfold run in Hc.
    rewrite Hc in H. destruct (flush e (Dirty u3) (table s3)) as [[] ?]; by simplify_eq.
  - exfalso. rewrite run_delete_user in H.
    destruct (table st !! uid); [destruct (storage_fault e)|]; by simplify_eq.
  - exfalso. unfold run, get_all_users, query_all, mbind, M_bind, mret, M_ret in H.
    by simplify_eq.
Qed.

Lemma handlers_raise_no_key_error_witness :
  let req := PUT_user "u1" (JStr "name") in
  run (handle e0 req) st1 = (Uncaught TypeError, State (table st1) (cache st1) [QueryGet "u1"]) /\
  TypeError <> KeyError.
Proof.
  intros req.
  assert (Hrun : run (handle e0 req) st1 =
                 (Uncaught TypeError, State (table st1) (cache st1) [QueryGet "u1"]))
    by reflexivity.
  split; [exact Hrun|].
  exact (handlers_raise_no_key_error e0 req st1 TypeError _ Hrun).
Defined.

Lemma email_taken_insert_same tbl uid r email :
  email_taken (<[uid := r]> tbl) uid email = email_taken tbl uid email.
Proof.
  apply eq_true_iff_eq. rewrite !email_taken_spec. split.
  - intros (k & r0 & Hl & Hk & He). rewrite lookup_insert_ne in Hl by done. eauto 10.
  - intros (k & r0 & Hl & Hk & He). exists k, r0. by rewrite lookup_insert_ne.
Qed.

(** X18: an update that succeeded, made again on the state it left, succeeds
    with the same body and changes neither the table nor the cache. *)
Theorem update_is_idempotent e uid data st body st1 :
  run (update_user e uid data) st = (Response body 200, st1) ->
  exists st2,
    run (update_user e uid data) st1 = (Response body 200, st2) /\
    table st2 = table st1 /\ cache st2 = cache st1.
Proof.
  intros H.
  apply update_user_inv in H
    as [(_ & ? & _)|[(_ & _ & ? & _)|[(_ & _ & Hrej & _)|(Ht & r & u & Hl & Hp & H)]]];
    [done|done|by destruct Hrej as [?|[?|[? ?]]]|].
  unfold update_commit in H.
  destruct (flush e (Dirty u) (table st)) as [[u'| |] tbl] eqn:Hf; simplify_eq.
  pose proof Hf as Hf'.
  apply flush_committed in Hf' as (Hfault & Het & n & Hb & -> & ->).
  destruct Hp as (Hid & Hn & He & Ha). simpl in Hid, Hn, He, Ha.
  set (r' := Row n (User.email u) (User.age u)) in *.
  set (st1 := State _ _ _).
  assert (Hl1 : table st1 !! uid = Some r').
  { subst st1. simpl. rewrite Hid. apply lookup_insert_eq. }
  assert (Hp1 : patched data (User.load uid r') u).
  { unfold patched. simpl. split_and!; try done.
    - destruct Hn as [[Hi Hn]|Hn]; [|by right]. left. split; [done|].
      rewrite Hn in Hb. simpl in Hb. congruence.
    - destruct He as [[Hi He]|He]; [|by right]. by left.
    - destruct Ha as [[Hi Ha]|Ha]; [|by right]. by left. }
  rewrite (update_user_patched e uid data r' u st1 Ht Hl1 Hp1).
  unfold update_commit.
  assert (Hf1 : flush e (Dirty u) (table st1) =
                (Committed (User.load (User.id u) r'), <[User.id u := r']> (table st1))).
  { unfold flush. rewrite Hfault, Hb. subst st1. simpl.
    by rewrite email_taken_insert_same, Het. }
  rewrite Hf1. eexists. split; [reflexivity|]. subst st1. simpl. split.
  - apply insert_insert_eq.
  - rewrite delete_delete_eq. done.
Qed.

Lemma update_is_idempotent_witness :
  let data := obj [("name", JStr "X"); ("age", JInt 31)] in
  let body := User.to_dict (User.load "u1" (Row "X" "ann@x\.org" 31)) in
  let st' := snd (run (update_user e0 "u1" data) st2) in
  run (update_user e0 "u1" data) st2 = (Response body 200, st') /\
  exists st'',
    run (update_user e0 "u1" data) st' = (Response body 200, st'') /\
    table st'' = table st' /\ cache st'' = cache st'.
Proof.
  intros data body st'.
  assert (Hrun : run (update_user e0 "u1" data) st2 = (Response body 200, st'))
    by reflexivity.
  split; [exact Hrun|].
  exact (update_is_idempotent e0 "u1" data st2 body st' Hrun).
Defined.

(** X19: the listing that follows a successful create holds the created entity
    and one element more than before. *)
Theorem created_user_is_listed e data st body st' :
  run (create_user e data) st = (Response body 201, st') ->
  exists l,
    fst (run get_all_users st') = Response (JArr l) 200 /\
    In body l /\ length l = S (size (table st)).
Proof.
  intros H. apply create_user_ok in H as (r & v & Hnew & Ht & _ & _ & _ & _ & _ & _ & -> & _).
  eexists. split; [reflexivity|]. rewrite Ht. split.
  - rewrite map_map. apply in_map_iff. exists (uuid4 e, r). split; [done|].
    apply list_elem_of_In, elem_of_map_to_list, lookup_insert_eq.
  - rewrite !length_map, length_map_to_list. by apply map_size_insert_None.
Qed.

Lemma created_user_is_listed_witness :
  let body := User.to_dict (User.load "u2" (Row "Carol" "carol@x\.org" 27)) in
  let st' := snd (run (create_user e0 carol_body) st1) in
  run (create_user e0 carol_body) st1 = (Response body 201, st') /\
  exists l,
    fst (run get_all_users st') = Response (JArr l) 200 /\
    In body l /\ length l = S (size (table st1)).
Proof.
  intros body st'.
  assert (Hrun : run (create_user e0 carol_body) st1 = (Response body 201, st'))
    by reflexivity.
  split; [exact Hrun|].
  exact (created_user_is_listed e0 carol_body st1 body st' Hrun).
Defined.
